(** * Pagination of collection responses (gophercloud, [pagination.go])

    A shallow embedding of [pagination.go] and of the library functions it
    calls, followed by the properties of the pagination engine.

    Conventions of the embedding.
    - A Go [string] and a Go [[]byte] are sequences of bytes: [string].
    - A Go result [(T, error)] is a pair [T * error]; [error] is
      [option GoError], [None] being [nil].  Both components are kept, as
      the source returns zero values next to errors.
    - Go [int] is [Z]; the only operation used on it is comparison with 0.
    - A Go map is a [gmap]; where the source ranges over a map of decoded
      JSON, the object is an association list whose order stands for the
      (unspecified) order in which [range] visits the keys.
    - Functions of the standard library and of third-party packages that
      the source calls are embedded from their Go sources: [net/url] and
      [strings] as of Go 1.22, [mapstructure.Decode] specialised to the
      target type declared in [LinkedPage.NextPageURL].  [json.Unmarshal],
      [strings.EqualFold], [perigee.Request] and the type [ServiceClient]
      with its [AuthenticatedHeaders] are parameters.
    - A call of a Go function acts on a state of the world and returns a
      value or panics.  The functions handed to the package (fetch, count,
      handler, [lastMark]) are arbitrary such calls.
    - The loop of [EachPage] has no bound: its model takes the number of
      turns it may run, and says where the loop stands when they are
      used up.
    - A body given to [LinkedPage.NextPageURL] is one that
      [RememberHTTPResponse] can store: a decoded JSON value or raw
      bytes. *)

From stdpp Require Import gmap strings list fin_maps sorting.
From Stdlib Require Import ZArith Ascii String.

Open Scope string_scope.

(* ================================================================== *)
(** * Errors *)

(** The [error] values that can flow through the package.
    [ErrPageNotAvailable] is the package-level variable of the source;
    the others are the errors of the libraries. *)
Inductive GoError : Type :=
  | ErrPageNotAvailable
  | EscapeError (s : string)            (* net/url *)
  | InvalidHostError (s : string)       (* net/url *)
  | InvalidSemicolonError               (* net/url, parseQuery *)
  | MapstructureError (fields : list string)
      (* *mapstructure.Error: the names of the fields that failed *)
  | ForeignError (tag : string).        (* any other error value *)

Definition error : Type := option GoError.

(* ================================================================== *)
(** * Bytes *)

Definition byte_between (lo hi c : ascii) : bool :=
  (N_of_ascii lo <=? N_of_ascii c)%N && (N_of_ascii c <=? N_of_ascii hi)%N.

Definition byte_among (c : ascii) (cs : string) : bool :=
  existsb (Ascii.eqb c) (list_ascii_of_string cs).

(** The double quote, written by its code. *)
Definition dquote : ascii := "034"%char.

Definition ishex (c : ascii) : bool :=
  byte_between "0" "9" c || byte_between "a" "f" c || byte_between "A" "F" c.

Definition unhex (c : ascii) : N :=
  if byte_between "0" "9" c then (N_of_ascii c - N_of_ascii "0")%N
  else if byte_between "a" "f" c then (N_of_ascii c - N_of_ascii "a" + 10)%N
  else if byte_between "A" "F" c then (N_of_ascii c - N_of_ascii "A" + 10)%N
  else 0%N.

Definition upperhex : string := "0123456789ABCDEF".

Definition upperhex_at (n : N) : ascii :=
  default "0"%char (String.get (N.to_nat n) upperhex).

(* ================================================================== *)
(** * Package [strings] *)

(** [strings.Cut(s, sep)] for a one-byte separator. *)
Fixpoint Cut (s : string) (sep : ascii) : string * string * bool :=
  match s with
  | EmptyString => (EmptyString, EmptyString, false)
  | String c r =>
      if Ascii.eqb c sep then (EmptyString, r, true)
      else let '(before, after, found) := Cut r sep in
           (String c before, after, found)
  end.

(** [strings.Contains(s, sep)] for a one-byte separator. *)
Fixpoint Contains (s : string) (sep : ascii) : bool :=
  match s with
  | EmptyString => false
  | String c r => Ascii.eqb c sep || Contains r sep
  end.

(* ================================================================== *)
(** * Package [net/url] *)

Module url.

Inductive encoding : Type :=
  | encodePath
  | encodePathSegment
  | encodeHost
  | encodeZone
  | encodeUserPassword
  | encodeQueryComponent
  | encodeFragment.

Definition encoding_eqb (a b : encoding) : bool :=
  match a, b with
  | encodePath, encodePath
  | encodePathSegment, encodePathSegment
  | encodeHost, encodeHost
  | encodeZone, encodeZone
  | encodeUserPassword, encodeUserPassword
  | encodeQueryComponent, encodeQueryComponent
  | encodeFragment, encodeFragment => true
  | _, _ => false
  end.

(** [shouldEscape(c, mode)]. *)
Definition shouldEscape (c : ascii) (mode : encoding) : bool :=
  if byte_between "a" "z" c || byte_between "A" "Z" c || byte_between "0" "9" c
  then false
  else if (encoding_eqb mode encodeHost || encoding_eqb mode encodeZone)
          && (byte_among c "!$&'()*+,;=:[]<>" || Ascii.eqb c dquote)
  then false
  else if byte_among c "-_.~" then false
  else if byte_among c "$&+,/:;=?@"
          && match mode with
             | encodePath | encodePathSegment | encodeUserPassword
             | encodeQueryComponent | encodeFragment => true
             | _ => false
             end
  then match mode with
       | encodePath => Ascii.eqb c "?"
       | encodePathSegment => byte_among c "/;,?"
       | encodeUserPassword => byte_among c "@/?:"
       | encodeQueryComponent => true
       | _ => false
       end
  else if encoding_eqb mode encodeFragment && byte_among c "!()*" then false
  else true.

(** One byte of [escape(s, mode)]. *)
Definition escape_byte (mode : encoding) (c : ascii) : string :=
  if Ascii.eqb c " " && encoding_eqb mode encodeQueryComponent then "+"
  else if shouldEscape c mode then
    String "%" (String (upperhex_at (N.shiftr (N_of_ascii c) 4))
               (String (upperhex_at (N.land (N_of_ascii c) 15)) EmptyString))
  else String c EmptyString.

(** [escape(s, mode)]: the second loop of the source; its first loop only
    counts the bytes to escape and returns [s] itself when there are none,
    which is what the second loop yields then. *)
Fixpoint escape (s : string) (mode : encoding) : string :=
  match s with
  | EmptyString => EmptyString
  | String c r => escape_byte mode c ++ escape r mode
  end.

Definition QueryEscape (s : string) : string := escape s encodeQueryComponent.

Definition take3 (s : string) : string := String.substring 0 3 s.

(** First loop of [unescape(s, mode)]: validation of the escapes. *)
Fixpoint unescape_scan (s : string) (mode : encoding) : error :=
  match s with
  | EmptyString => None
  | String c r =>
      if Ascii.eqb c "%" then
        match r with
        | String a (String b r') =>
            if negb (ishex a) || negb (ishex b) then Some (EscapeError (take3 s))
            else if encoding_eqb mode encodeHost
                    && (unhex a <? 8)%N
                    && negb (String.eqb (take3 s) "%25")
            then Some (EscapeError (take3 s))
            else if encoding_eqb mode encodeZone
                    && negb (String.eqb (take3 s) "%25")
                    && negb (Ascii.eqb
                               (ascii_of_N (N.lor (N.shiftl (unhex a) 4) (unhex b)))
                               " ")
                    && shouldEscape
                         (ascii_of_N (N.lor (N.shiftl (unhex a) 4) (unhex b)))
                         encodeHost
            then Some (EscapeError (take3 s))
            else unescape_scan r' mode
        | _ => Some (EscapeError (take3 s))
        end
      else if Ascii.eqb c "+" then unescape_scan r mode
      else if (encoding_eqb mode encodeHost || encoding_eqb mode encodeZone)
              && (N_of_ascii c <? 128)%N && shouldEscape c encodeHost
      then Some (InvalidHostError (String c EmptyString))
      else unescape_scan r mode
  end.

(** Second loop of [unescape(s, mode)], run on a validated string. *)
Fixpoint unescape_build (s : string) (mode : encoding) : string :=
  match s with
  | EmptyString => EmptyString
  | String c r =>
      if Ascii.eqb c "%" then
        match r with
        | String a (String b r') =>
            String (ascii_of_N (N.lor (N.shiftl (unhex a) 4) (unhex b)))
                   (unescape_build r' mode)
        | _ => EmptyString
        end
      else if Ascii.eqb c "+" then
        String (if encoding_eqb mode encodeQueryComponent then " " else "+")%char
               (unescape_build r mode)
      else String c (unescape_build r mode)
  end.

Definition unescape (s : string) (mode : encoding) : string * error :=
  match unescape_scan s mode with
  | Some e => (EmptyString, Some e)
  | None => (unescape_build s mode, None)
  end.

Definition QueryUnescape (s : string) : string * error :=
  unescape s encodeQueryComponent.

(** [url.Values], a [map[string][]string]. *)
Abbreviation Values := (gmap string (list string)).

(** [v.Set(key, value)]: [v[key] = []string{value}]. *)
Definition Set_ (v : Values) (key value : string) : Values :=
  <[key := [value]]> v.

(** [first] keeps the first error met, as [if err == nil { err = err1 }]. *)
Definition first_error (err err1 : error) : error :=
  match err with
  | None => err1
  | Some _ => err
  end.

(** The loop of [parseQuery(m, query)].  Every turn removes at least one
    byte from a non-empty [query], so [S (length query)] turns are enough;
    [fuel] counts them. *)
Fixpoint parseQuery_loop (fuel : nat) (m : Values) (query : string) (err : error)
  : Values * error :=
  match fuel with
  | O => (m, err)
  | S fuel' =>
      if String.eqb query "" then (m, err)
      else
        let '(key, query', _) := Cut query "&" in
        if Contains key ";" then
          parseQuery_loop fuel' m query' (Some InvalidSemicolonError)
        else if String.eqb key "" then parseQuery_loop fuel' m query' err
        else
          let '(key, value, _) := Cut key "=" in
          let '(key, err1) := QueryUnescape key in
          match err1 with
          | Some _ => parseQuery_loop fuel' m query' (first_error err err1)
          | None =>
              let '(value, err1) := QueryUnescape value in
              match err1 with
              | Some _ => parseQuery_loop fuel' m query' (first_error err err1)
              | None =>
                  parseQuery_loop fuel'
                    (<[key := (default [] (m !! key) ++ [value])%list]> m) query' err
              end
          end
  end.

Definition parseQuery (m : Values) (query : string) : Values * error :=
  parseQuery_loop (S (String.length query)) m query None.

(** [ParseQuery(query)]. *)
Definition ParseQuery (query : string) : Values * error :=
  parseQuery ∅ query.

(** Strings are ordered byte by byte, as Go's [<] on strings. *)
Definition string_le (a b : string) : Prop := Is_true (String.leb a b).

#[global] Instance string_le_dec a b : Decision (string_le a b).
Proof. unfold string_le. apply _. Defined.

Definition sorted_keys (v : Values) : list string :=
  merge_sort string_le (map_to_list v).*1.

(** [v.Encode()]: keys in sorted order, the values of a key in their
    order, [buf] being the [strings.Builder] of the source. *)
Definition Encode (v : Values) : string :=
  fold_left
    (fun buf k =>
       let vs := default [] (v !! k) in
       let keyEscaped := QueryEscape k in
       fold_left
         (fun buf val =>
            (if (0 <? String.length buf)%nat then buf ++ "&" else buf)
            ++ keyEscaped ++ "=" ++ QueryEscape val)
         vs buf)
    (sorted_keys v) "".

(** [url.Userinfo]. *)
Record Userinfo : Type := mkUserinfo {
  username : string;
  password : string;
  passwordSet : bool
}.

Definition Userinfo_String (u : Userinfo) : string :=
  escape (username u) encodeUserPassword
  ++ (if passwordSet u then ":" ++ escape (password u) encodeUserPassword
      else "").

(** [url.URL]. *)
Record URL : Type := mkURL {
  Scheme : string;
  Opaque : string;
  User : option Userinfo;
  Host : string;
  Path : string;
  RawPath : string;
  OmitHost : bool;
  ForceQuery : bool;
  RawQuery : string;
  Fragment : string;
  RawFragment : string
}.

(** The zero [URL]. *)
Definition URL_zero : URL :=
  mkURL "" "" None "" "" "" false false "" "" "".

(** Assignment to the field [RawQuery]. *)
Definition set_RawQuery (u : URL) (q : string) : URL :=
  mkURL (Scheme u) (Opaque u) (User u) (Host u) (Path u) (RawPath u)
        (OmitHost u) (ForceQuery u) q (Fragment u) (RawFragment u).

(** [u.Query()]: [v, _ := ParseQuery(u.RawQuery)]. *)
Definition Query (u : URL) : Values := fst (ParseQuery (RawQuery u)).

(** [validEncoded(s, mode)]. *)
Fixpoint validEncoded (s : string) (mode : encoding) : bool :=
  match s with
  | EmptyString => true
  | String c r =>
      if byte_among c "!$&'()*+,;=:@" || byte_among c "[]" || Ascii.eqb c "%"
      then validEncoded r mode
      else if shouldEscape c mode then false
      else validEncoded r mode
  end.

Definition nonempty (s : string) : bool := negb (String.eqb s "").

(** [u.EscapedPath()]. *)
Definition EscapedPath (u : URL) : string :=
  if nonempty (RawPath u) && validEncoded (RawPath u) encodePath
     && match unescape (RawPath u) encodePath with
        | (p, None) => String.eqb p (Path u)
        | (_, Some _) => false
        end
  then RawPath u
  else if String.eqb (Path u) "*" then "*"
  else escape (Path u) encodePath.

(** [u.EscapedFragment()]. *)
Definition EscapedFragment (u : URL) : string :=
  if nonempty (RawFragment u) && validEncoded (RawFragment u) encodeFragment
     && match unescape (RawFragment u) encodeFragment with
        | (f, None) => String.eqb f (Fragment u)
        | (_, Some _) => false
        end
  then RawFragment u
  else escape (Fragment u) encodeFragment.

Definition isSome {A} (o : option A) : bool :=
  match o with Some _ => true | None => false end.

(** The part of [u.String()] written before the query: scheme, opaque
    part or authority and path.  [buf] is threaded as in the source. *)
Definition String_hier (u : URL) : string :=
  let buf := if nonempty (Scheme u) then Scheme u ++ ":" else "" in
  if nonempty (Opaque u) then buf ++ Opaque u
  else
    let buf :=
      if nonempty (Scheme u) || nonempty (Host u) || isSome (User u) then
        if OmitHost u && negb (nonempty (Host u)) && negb (isSome (User u))
        then buf
        else
          let buf :=
            if nonempty (Host u) || nonempty (Path u) || isSome (User u)
            then buf ++ "//" else buf in
          let buf :=
            match User u with
            | Some ui => buf ++ Userinfo_String ui ++ "@"
            | None => buf
            end in
          if nonempty (Host u) then buf ++ escape (Host u) encodeHost else buf
      else buf in
    let path := EscapedPath u in
    let buf :=
      match path with
      | String c _ =>
          if negb (Ascii.eqb c "/") && nonempty (Host u) then buf ++ "/" else buf
      | EmptyString => buf
      end in
    let buf :=
      if String.eqb buf "" then
        let '(segment, _, _) := Cut path "/" in
        if Contains segment ":" then buf ++ "./" else buf
      else buf in
    buf ++ path.

(** [u.String()]. *)
Definition String_ (u : URL) : string :=
  let buf := String_hier u in
  let buf :=
    if ForceQuery u || nonempty (RawQuery u) then buf ++ "?" ++ RawQuery u
    else buf in
  if nonempty (Fragment u) then buf ++ "#" ++ EscapedFragment u else buf.

(** ** Vocabulary for the properties of queries *)

(** The bytes that separate the parts of a query. *)
Definition is_separator (c : ascii) : bool := byte_among c "&;=".

(** The three shapes of an escaped byte, as a check that can be run on
    every byte. *)
Definition escape_byte_ok (c : ascii) : bool :=
  match escape_byte encodeQueryComponent c with
  | String x EmptyString =>
      if Ascii.eqb x "+" then Ascii.eqb c " "
      else Ascii.eqb x c && negb (Ascii.eqb x "%") && negb (is_separator x)
  | String x (String a (String b EmptyString)) =>
      Ascii.eqb x "%" && ishex a && ishex b
      && Ascii.eqb (ascii_of_N (N.lor (N.shiftl (unhex a) 4) (unhex b))) c
      && negb (is_separator a) && negb (is_separator b)
  | _ => false
  end.

(** The 256 bytes. *)
Definition all_bytes : list ascii := map ascii_of_nat (seq 0 256).

(** One [key=value] of an encoded query. *)
Definition encode_pair (kv : string * string) : string :=
  QueryEscape (fst kv) ++ "=" ++ QueryEscape (snd kv).

(** The pairs of a query, joined by [&]. *)
Fixpoint join_amp (ps : list string) : string :=
  match ps with
  | [] => ""
  | p :: ps' =>
      match ps' with
      | [] => p
      | _ => p ++ "&" ++ join_amp ps'
      end
  end.

(** [m[key] = append(m[key], value)]. *)
Definition add_value (m : Values) (kv : string * string) : Values :=
  <[fst kv := (default [] (m !! fst kv) ++ [snd kv])%list]> m.

(** The pairs of [v] under the keys [keys], in the order of [Encode]. *)
Definition pairs_of (v : Values) (keys : list string) : list (string * string) :=
  flat_map (fun k => map (pair k) (default [] (v !! k))) keys.

(** No key is bound to an empty list of values. *)
Definition nonempty_values (v : Values) : Prop :=
  forall k, v !! k <> Some [].

(** What [Encode] writes to [buf] for one value of one key. *)
Definition write_pair (buf : string) (kv : string * string) : string :=
  (if (0 <? String.length buf)%nat then buf ++ "&" else buf) ++ encode_pair kv.

(** What [u.String()] writes after the query. *)
Definition String_fragment (u : URL) : string :=
  if nonempty (Fragment u) then "#" ++ EscapedFragment u else "".

End url.

(* ================================================================== *)
(** * Decoded bodies *)

(** What [json.Unmarshal] stores into an [interface{}]: [nil], [bool],
    [float64] (kept as its bit pattern), [string], [[]interface{}] and
    [map[string]interface{}].  The members of an object have distinct
    keys; their order in the list is the order in which a [range] over
    the map visits them. *)
#[warnings="-register-all"]
Inductive JSON : Type :=
  | JNull
  | JBool (b : bool)
  | JNumber (bits : N)
  | JString (s : string)
  | JArray (elems : list JSON)
  | JObject (members : list (string * JSON)).

(** The dynamic value of the field [Body interface{}]: a decoded JSON
    value ([Decoded JNull] is the nil interface) or the raw [[]byte]. *)
Inductive BodyValue : Type :=
  | Decoded (j : JSON)
  | RawBytes (bs : string).

(** The kinds of decoded value that [mapstructure] accepts for a struct
    and for a pointer to a string. *)
Definition is_null_or_object (j : JSON) : bool :=
  match j with JNull | JObject _ => true | _ => false end.

Definition is_null_or_string (j : JSON) : bool :=
  match j with JNull | JString _ => true | _ => false end.

(* ================================================================== *)
(** * Package [net/http] *)

Module http.

(** [http.Header], a [map[string][]string]. *)
Abbreviation Header := (gmap string (list string)).

(** [h.Get(key)] for a [key] that is already in canonical form, as
    ["Content-Type"] is: the first value stored under [key], or [""]. *)
Definition Get (h : Header) (key : string) : string :=
  match h !! key with
  | Some (v :: _) => v
  | _ => ""
  end.

(** An [io.ReadCloser], given by what [ioutil.ReadAll] returns on it:
    the bytes read and the error that stopped the reading, if any. *)
Record ReadCloser : Type := mkReadCloser {
  ReadAll : string * error
}.

(** [http.Request], of which only the field [URL *url.URL] is read. *)
Record Request_ : Type := mkRequest {
  Request_URL : option url.URL
}.

(** [http.Response]: the fields read by the package.  [Body] and
    [Request] can be nil. *)
Record Response : Type := mkResponse {
  Header_ : Header;
  Body_ : option ReadCloser;
  Request : option Request_
}.

(** [http.Response{}]. *)
Definition Response_zero : Response := mkResponse ∅ None None.

End http.

(* ================================================================== *)
(** * [LastHTTPResponse] *)

(** [type LastHTTPResponse struct { url.URL; http.Header; Body interface{} }] *)
Record LastHTTPResponse : Type := mkLastHTTPResponse {
  URL : url.URL;
  Header : http.Header;
  Body : BodyValue
}.

(** [LastHTTPResponse{}]. *)
Definition LastHTTPResponse_zero : LastHTTPResponse :=
  mkLastHTTPResponse url.URL_zero ∅ (Decoded JNull).

(** The result of a call that can panic. *)
Inductive res (A : Type) : Type :=
  | Val (a : A)
  | Panic.
Arguments Val {A} a.
Arguments Panic {A}.

Section RememberHTTPResponse.

(** [json.Unmarshal(data, &v)] for [v] an [interface{}]: the value it
    stores, or the error it returns (leaving [v] untouched). *)
Variable json_Unmarshal : string -> JSON + GoError.

(** [RememberHTTPResponse(resp)].  The deferred [resp.Body.Close()]
    panics on a nil [Body]; so does [*resp.Request.URL] on a nil
    pointer. *)
Definition RememberHTTPResponse (resp : http.Response)
  : res (LastHTTPResponse * error) :=
  match http.Body_ resp with
  | None => Panic
  | Some body =>
      let '(rawBody, err) := http.ReadAll body in
      match err with
      | Some _ => Val (LastHTTPResponse_zero, err)
      | None =>
          let parsed : BodyValue + GoError :=
            if String.eqb (http.Get (http.Header_ resp) "Content-Type")
                          "application/json"
            then match json_Unmarshal rawBody with
                 | inl v => inl (Decoded v)
                 | inr e => inr e
                 end
            else inl (RawBytes rawBody) in
          match parsed with
          | inr e => Val (LastHTTPResponse_zero, Some e)
          | inl parsedBody =>
              match http.Request resp with
              | Some (http.mkRequest (Some u)) =>
                  Val (mkLastHTTPResponse u (http.Header_ resp) parsedBody, None)
              | _ => Panic
              end
          end
      end
  end.

End RememberHTTPResponse.

(** The request URL of a response is missing. *)
Definition no_request_url (resp : http.Response) : Prop :=
  match http.Request resp with
  | Some (http.mkRequest (Some _)) => False
  | _ => True
  end.

(* ================================================================== *)
(** * Package [mapstructure], for the target of [LinkedPage.NextPageURL] *)

Module mapstructure.

(** The target type:
[[
  type response struct {
    Links struct {
      Next *string `mapstructure:"next,omitempty"`
    } `mapstructure:"links"`
  }
]] *)
Record Links_t : Type := mkLinks { Next : option string }.
Record response : Type := mkResponse { Links : Links_t }.

Definition response_zero : response := mkResponse (mkLinks None).

Section Decode.

(** [strings.EqualFold]. *)
Variable EqualFold : string -> string -> bool.

(** The value [decodeStruct] finds for a field: [dataVal.MapIndex] on
    the field name, and when that fails the first key of the map, in
    [range] order, that is equal to it under [strings.EqualFold]. *)
Definition field_value (fieldName : string) (members : list (string * JSON))
  : option JSON :=
  match find (fun kv => String.eqb (fst kv) fieldName) members with
  | Some kv => Some (snd kv)
  | None =>
      match find (fun kv => EqualFold (fst kv) fieldName) members with
      | Some kv => Some (snd kv)
      | None => None
      end
  end.

(** No key of the object matches the field name. *)
Definition no_field (fieldName : string) (members : list (string * JSON)) : Prop :=
  forall k v,
    (k, v) ∈ members -> k <> fieldName /\ EqualFold k fieldName = false.

(** [decode(name, data, val)] for [val] of type [*string]: nil data
    leaves [val] alone, a string is stored behind a fresh pointer, any
    other kind is an error (weakly typed input is off). *)
Definition decode_ptr_string (name : string) (data : JSON) (val : option string)
  : option string * list string :=
  match data with
  | JNull => (val, [])
  | JString s => (Some s, [])
  | _ => (val, [name])
  end.

(** [decode(name, data, val)] for [val] the struct [Links]: nil data
    leaves it alone, a map is decoded field by field, and a field
    without a matching key is skipped; any other kind is an error. *)
Definition decode_Links (name : string) (data : JSON) (val : Links_t)
  : Links_t * list string :=
  match data with
  | JNull => (val, [])
  | JObject members =>
      match field_value "next" members with
      | None => (val, [])
      | Some raw =>
          let '(nxt, errors) :=
            decode_ptr_string (name ++ "." ++ "next") raw (Next val) in
          (mkLinks nxt, errors)
      end
  | _ => (val, [name])
  end.

(** [decode("", input, val)] for [val] the struct [response]. *)
Definition decode_response (input : BodyValue) (val : response)
  : response * list string :=
  match input with
  | Decoded JNull => (val, [])
  | Decoded (JObject members) =>
      match field_value "links" members with
      | None => (val, [])
      | Some raw =>
          let '(l, errors) := decode_Links "links" raw (Links val) in
          (mkResponse l, errors)
      end
  | _ => (val, [""])
  end.

(** [mapstructure.Decode(input, &r)]: the new value of [r] and the
    error. *)
Definition Decode (input : BodyValue) (r : response) : response * error :=
  let '(r', errors) := decode_response input r in
  (r', match errors with
       | [] => None
       | _ => Some (MapstructureError errors)
       end).

End Decode.

End mapstructure.

(* ================================================================== *)
(** * The world, actions and observed runs *)

Section Pagination.

(** [U] is the state of everything outside the package that a call can
    read or change: the remote service, the client, the variables the
    caller's functions capture. *)
Context {U : Type}.

(** The state a call runs in: the outside world, and the store of the
    variables captured by the closures that the package itself builds
    (the [consumed] of [NewSinglePager]), one cell per variable. *)
Record World : Type := mkWorld {
  ext : U;
  cells : list bool
}.

(** A Go call: it returns a value or panics, and changes the world. *)
Definition Act (A : Type) : Type := World -> res A * World.

(** A call of the caller or of a library, which cannot reach the cells. *)
Definition outside {A : Type} (f : U -> res A * U) : Act A :=
  fun w => let '(r, u) := f (ext w) in (r, mkWorld u (cells w)).

(* ------------------------------------------------------------------ *)
(** ** Pages *)

(** [type SinglePage LastHTTPResponse], [type LinkedPage LastHTTPResponse] *)
Definition SinglePage : Type := LastHTTPResponse.
Definition LinkedPage : Type := LastHTTPResponse.

(** [type MarkerPage struct { LastHTTPResponse; lastMark func(Page) (string, error) }].
    [NextPageURL] applies [lastMark] to the page itself, whose content
    besides [lastMark] is the embedded [LastHTTPResponse]: the model hands
    that content to [lastMark]. *)
Record MarkerPage : Type := mkMarkerPage {
  MarkerPage_LastHTTPResponse : LastHTTPResponse;
  lastMark : LastHTTPResponse -> Act (string * error)
}.

(** A value of the interface [Page]: nil, one of the three page types of
    the package, or a value of another type with a [NextPageURL] method. *)
Inductive Page : Type :=
  | Page_nil
  | Page_Single (current : SinglePage)
  | Page_Linked (current : LinkedPage)
  | Page_Marker (current : MarkerPage)
  | Page_other (next_page_url : Act (string * error)).

(** [SinglePage{}] as a [Page]. *)
Definition SinglePage_zero : Page := Page_Single LastHTTPResponse_zero.

(** [func (current SinglePage) NextPageURL() (string, error)] *)
Definition SinglePage_NextPageURL (current : SinglePage) : Act (string * error) :=
  fun w => (Val ("", None), w).

Section Libraries.

Variable EqualFold : string -> string -> bool.
Variable json_Unmarshal : string -> JSON + GoError.

(** [func (current LinkedPage) NextPageURL() (string, error)] *)
Definition LinkedPage_NextPageURL (current : LinkedPage) : Act (string * error) :=
  fun w =>
    let '(r, err) :=
      mapstructure.Decode EqualFold (Body current) mapstructure.response_zero in
    match err with
    | Some _ => (Val ("", err), w)
    | None =>
        match mapstructure.Next (mapstructure.Links r) with
        | None => (Val ("", None), w)
        | Some next => (Val (next, None), w)
        end
    end.

(** The value of [currentURL] when [MarkerPage.NextPageURL] returns it:
    the stored URL with [RawQuery] reassigned. *)
Definition MarkerPage_nextURL (currentURL : url.URL) (mark : string) : url.URL :=
  let q := url.Query currentURL in
  let q := url.Set_ q "marker" mark in
  url.set_RawQuery currentURL (url.Encode q).

(** [func (current MarkerPage) NextPageURL() (string, error)] *)
Definition MarkerPage_NextPageURL (current : MarkerPage) : Act (string * error) :=
  fun w =>
    let currentURL := URL (MarkerPage_LastHTTPResponse current) in
    match lastMark current (MarkerPage_LastHTTPResponse current) w with
    | (Panic, w1) => (Panic, w1)
    | (Val (mark, err), w1) =>
        match err with
        | Some _ => (Val ("", err), w1)
        | None => (Val (url.String_ (MarkerPage_nextURL currentURL mark), None), w1)
        end
    end.

(** The method call [page.NextPageURL()] on an interface value. *)
Definition NextPageURL (page : Page) : Act (string * error) :=
  match page with
  | Page_nil => fun w => (Panic, w)
  | Page_Single current => SinglePage_NextPageURL current
  | Page_Linked current => LinkedPage_NextPageURL current
  | Page_Marker current => MarkerPage_NextPageURL current
  | Page_other next_page_url => next_page_url
  end.

(* ------------------------------------------------------------------ *)
(** ** Pager *)

Record Pager : Type := mkPager {
  initialURL : string;
  fetchNextPage : string -> Act (Page * error);
  countPage : Page -> Act (Z * error)
}.

(** [NewPager(initialURL, fetchNextPage, countPage)] *)
Definition NewPager (initialURL : string)
    (fetchNextPage : string -> Act (Page * error))
    (countPage : Page -> Act (Z * error)) : Pager :=
  mkPager initialURL fetchNextPage countPage.

(* ------------------------------------------------------------------ *)
(** ** Observed runs *)

(** The calls [EachPage] makes, in the order it makes them. *)
Inductive Event : Type :=
  | EvFetch (currentURL : string)
  | EvCount (page : Page)
  | EvHandler (page : Page)
  | EvNextPageURL (page : Page).

(** A computation that records the calls it makes. *)
Definition M (A : Type) : Type := World -> res A * World * list Event.

Definition ret {A : Type} (a : A) : M A := fun w => (Val a, w, []).

Definition bind {A B : Type} (m : M A) (f : A -> M B) : M B :=
  fun w =>
    match m w with
    | (Val a, w1, t1) => let '(r, w2, t2) := f a w1 in (r, w2, (t1 ++ t2)%list)
    | (Panic, w1, t1) => (Panic, w1, t1)
    end.

(** The call [f], recorded as [ev]. *)
Definition call {A : Type} (ev : Event) (f : Act A) : M A :=
  fun w => let '(r, w1) := f w in (r, w1, [ev]).

Notation "'let*' x := m 'in' k" := (bind m (fun x => k))
  (at level 10, x pattern, m at level 200, k at level 200).

(** How one turn of the loop of [EachPage] ends. *)
Inductive turn : Type :=
  | Return (err : error)
  | Continue (currentURL : string).

(** The body of [for { ... }] in [EachPage]. *)
Definition EachPage_body (p : Pager) (handler : Page -> Act (bool * error))
    (currentURL : string) : M turn :=
  let* (currentPage, err) := call (EvFetch currentURL) (fetchNextPage p currentURL) in
  match err with
  | Some _ => ret (Return err)
  | None =>
      let* (count, err) := call (EvCount currentPage) (countPage p currentPage) in
      match err with
      | Some _ => ret (Return err)
      | None =>
          if (count =? 0)%Z then ret (Return None)
          else
            let* (ok, err) := call (EvHandler currentPage) (handler currentPage) in
            match err with
            | Some _ => ret (Return err)
            | None =>
                if negb ok then ret (Return None)
                else
                  let* (currentURL, err) :=
                    call (EvNextPageURL currentPage) (NextPageURL currentPage) in
                  match err with
                  | Some _ => ret (Return err)
                  | None =>
                      if String.eqb currentURL "" then ret (Return None)
                      else ret (Continue currentURL)
                  end
            end
      end
  end.

(** What is known of a call of [EachPage] after a number of turns. *)
Inductive outcome : Type :=
  | Returned (err : error)
  | Panicked
  | Running (currentURL : string).

(** The loop of [EachPage], for at most [fuel] turns.  [Running url]
    says that the loop is about to start a further turn with
    [currentURL = url]. *)
Fixpoint EachPage_loop (fuel : nat) (p : Pager)
    (handler : Page -> Act (bool * error)) (currentURL : string) (w : World)
  : outcome * World * list Event :=
  match fuel with
  | O => (Running currentURL, w, [])
  | S fuel' =>
      match EachPage_body p handler currentURL w with
      | (Val (Return err), w1, t1) => (Returned err, w1, t1)
      | (Val (Continue url1), w1, t1) =>
          let '(o, w2, t2) := EachPage_loop fuel' p handler url1 w1 in
          (o, w2, (t1 ++ t2)%list)
      | (Panic, w1, t1) => (Panicked, w1, t1)
      end
  end.

(** [func (p Pager) EachPage(handler func(Page) (bool, error)) error] *)
Definition EachPage (fuel : nat) (p : Pager)
    (handler : Page -> Act (bool * error)) (w : World)
  : outcome * World * list Event :=
  EachPage_loop fuel p handler (initialURL p) w.

Definition is_handler_call (e : Event) : bool :=
  match e with EvHandler _ => true | _ => false end.

(** The number of times the handler was invoked in a run. *)
Definition handler_calls (t : list Event) : nat :=
  List.length (filter (fun e => is_handler_call e = true) t).

(* ------------------------------------------------------------------ *)
(** ** The transport *)

(** [perigee.Options], the fields set by [request]. *)
Record perigee_Options : Type := mkOptions {
  MoreHeaders : gmap string string;
  OkCodes : list Z
}.

(** [*ServiceClient], declared elsewhere in the package;
    [client.Provider.AuthenticatedHeaders()]; [perigee.Request], whose
    result is a pointer to a [perigee.Response], of which
    [HttpResponse] is read. *)
Variable ServiceClient : Type.
Variable AuthenticatedHeaders : ServiceClient -> U -> res (gmap string string) * U.
Variable perigee_Request :
  string -> string -> perigee_Options -> U -> res (option http.Response * error) * U.

(** [func request(client *ServiceClient, url string) (http.Response, error)] *)
Definition request (client : ServiceClient) (url : string)
  : Act (http.Response * error) :=
  fun w =>
    match outside (AuthenticatedHeaders client) w with
    | (Panic, w1) => (Panic, w1)
    | (Val headers, w1) =>
        match outside (perigee_Request "GET" url (mkOptions headers [200; 204]%Z)) w1 with
        | (Panic, w2) => (Panic, w2)
        | (Val (resp, err), w2) =>
            match err with
            | Some _ => (Val (http.Response_zero, err), w2)
            | None =>
                match resp with
                | Some r => (Val (r, None), w2)
                | None => (Panic, w2)
                end
            end
        end
    end.

(* ------------------------------------------------------------------ *)
(** ** Constructors *)

(** Reading and writing a captured variable.  A cell that was never
    allocated reads as [false]. *)
Definition read_cell (l : nat) (w : World) : bool := default false (cells w !! l).
Definition write_cell (l : nat) (b : bool) (w : World) : World :=
  mkWorld (ext w) (<[l := b]> (cells w)).

(** The closure [single] of [NewSinglePager], [consumed] being the cell
    [l]. *)
Definition single (l : nat) (client : ServiceClient) (onlyURL : string)
    (_ : string) : Act (Page * error) :=
  fun w =>
    if negb (read_cell l w) then
      let w := write_cell l true w in
      match request client onlyURL w with
      | (Panic, w1) => (Panic, w1)
      | (Val (resp, err), w1) =>
          match err with
          | Some _ => (Val (SinglePage_zero, err), w1)
          | None =>
              match RememberHTTPResponse json_Unmarshal resp with
              | Panic => (Panic, w1)
              | Val (cp, err) =>
                  match err with
                  | Some _ => (Val (SinglePage_zero, err), w1)
                  | None => (Val (Page_Single cp, None), w1)
                  end
              end
          end
      end
    else (Val (SinglePage_zero, Some ErrPageNotAvailable), w).

(** [NewSinglePager(client, onlyURL, countPage)]: [consumed := false]
    allocates a cell, which the closure captures. *)
Definition NewSinglePager (client : ServiceClient) (onlyURL : string)
    (countPage : Page -> Act (Z * error)) (w : World) : Pager * World :=
  let l := List.length (cells w) in
  (mkPager "" (single l client onlyURL) countPage,
   mkWorld (ext w) (cells w ++ [false])).

(** The closure [fetchNextPage] of [NewLinkedPager]. *)
Definition NewLinkedPager_fetchNextPage (client : ServiceClient) (url : string)
  : Act (Page * error) :=
  fun w =>
    match request client url w with
    | (Panic, w1) => (Panic, w1)
    | (Val (resp, err), w1) =>
        match err with
        | Some _ => (Val (Page_nil, err), w1)
        | None =>
            match RememberHTTPResponse json_Unmarshal resp with
            | Panic => (Panic, w1)
            | Val (cp, err) =>
                match err with
                | Some _ => (Val (Page_nil, err), w1)
                | None => (Val (Page_Linked cp, None), w1)
                end
            end
        end
    end.

(** [NewLinkedPager(client, initialURL, countPage)] *)
Definition NewLinkedPager (client : ServiceClient) (initialURL : string)
    (countPage : Page -> Act (Z * error)) : Pager :=
  mkPager initialURL (NewLinkedPager_fetchNextPage client) countPage.

(** The closure [fetchNextPage] of [NewMarkerPager]. *)
Definition NewMarkerPager_fetchNextPage (client : ServiceClient)
    (lastMark : LastHTTPResponse -> Act (string * error)) (currentURL : string)
  : Act (Page * error) :=
  fun w =>
    match request client currentURL w with
    | (Panic, w1) => (Panic, w1)
    | (Val (resp, err), w1) =>
        match err with
        | Some _ => (Val (Page_nil, err), w1)
        | None =>
            match RememberHTTPResponse json_Unmarshal resp with
            | Panic => (Panic, w1)
            | Val (last, err) =>
                match err with
                | Some _ => (Val (Page_nil, err), w1)
                | None =>
                    (Val (Page_Marker (mkMarkerPage last lastMark), None), w1)
                end
            end
        end
    end.

(** [NewMarkerPager(client, initialURL, lastMark, countPage)] *)
Definition NewMarkerPager (client : ServiceClient) (initialURL : string)
    (lastMark : LastHTTPResponse -> Act (string * error))
    (countPage : Page -> Act (Z * error)) : Pager :=
  mkPager initialURL (NewMarkerPager_fetchNextPage client lastMark) countPage.

End Libraries.

End Pagination.

Arguments World : clear implicits.
Arguments Act : clear implicits.
Arguments MarkerPage : clear implicits.
Arguments Page : clear implicits.
Arguments Pager : clear implicits.
Arguments Event : clear implicits.
Arguments M : clear implicits.

(* ================================================================== *)
(** * Vocabulary for the constructors *)

Section Constructors_vocabulary.

Context {U : Type}.

(** What happens around the invocations of a fetch function: a further
    invocation, or a change of the outside world made elsewhere. *)
Inductive action : Type :=
  | Invoke (url0 : string)
  | Elsewhere (f : U -> U).

(** The results of the invocations in [acts], and the world they leave. *)
Fixpoint invocations (fetch : string -> Act U (Page U * error))
    (acts : list action) (w : World U)
  : list (res (Page U * error)) * World U :=
  match acts with
  | [] => ([], w)
  | Invoke url0 :: acts' =>
      let '(r, w1) := fetch url0 w in
      let '(rs, w2) := invocations fetch acts' w1 in
      (r :: rs, w2)
  | Elsewhere f :: acts' =>
      invocations fetch acts' (mkWorld (f (ext w)) (cells w))
  end.

(** What [acts] does to the outside world when every invocation in it
    leaves the world alone. *)
Fixpoint elsewhere_only (acts : list action) (u : U) : U :=
  match acts with
  | [] => u
  | Invoke _ :: acts' => elsewhere_only acts' u
  | Elsewhere f :: acts' => elsewhere_only acts' (f u)
  end.

Definition is_invoke (a : action) : bool :=
  match a with Invoke _ => true | Elsewhere _ => false end.

(** A call that neither reads nor writes the cells: it does in any world
    what it does with an empty store, and leaves the cells as they are. *)
Definition cell_blind {A : Type} (f : Act U A) : Prop :=
  forall w,
    f w = let '(r, w1) := f (mkWorld (ext w) []) in
          (r, mkWorld (ext w1) (cells w)).

(** The same for a computation that records its calls. *)
Definition run_blind {A : Type} (m : World U -> A * World U * list (Event U))
  : Prop :=
  forall w,
    m w = let '(r, w1, t) := m (mkWorld (ext w) []) in
          (r, mkWorld (ext w1) (cells w), t).

(** A page whose [NextPageURL] can only call functions that are blind to
    the cells. *)
Definition page_outside (page : Page U) : Prop :=
  match page with
  | Page_Marker current => forall r, cell_blind (lastMark current r)
  | Page_other next_page_url => cell_blind next_page_url
  | _ => True
  end.

Section Built.

Variable json_Unmarshal : string -> JSON + GoError.
Variable ServiceClient : Type.
Variable AuthenticatedHeaders : ServiceClient -> U -> res (gmap string string) * U.
Variable perigee_Request :
  string -> string -> perigee_Options -> U -> res (option http.Response * error) * U.

(** What the closure of [NewSinglePager] makes of the result of its
    request. *)
Definition single_page_of (rr : res (http.Response * error))
  : res (Page U * error) :=
  match rr with
  | Panic => Panic
  | Val (resp, Some e) => Val (SinglePage_zero, Some e)
  | Val (resp, None) =>
      match RememberHTTPResponse json_Unmarshal resp with
      | Panic => Panic
      | Val (cp, Some e) => Val (SinglePage_zero, Some e)
      | Val (cp, None) => Val (Page_Single cp, None)
      end
  end.

(** A Pager as [NewPager], [NewLinkedPager] and [NewMarkerPager] build it
    from functions that are blind to the cells. *)
Inductive built_without_state : Pager U -> Prop :=
  | built_NewPager initialURL0 fetch count :
      (forall url0, cell_blind (fetch url0)) ->
      (forall url0 w page e w1,
          fetch url0 w = (Val (page, e), w1) -> page_outside page) ->
      (forall page, cell_blind (count page)) ->
      built_without_state (NewPager initialURL0 fetch count)
  | built_NewLinkedPager client initialURL0 count :
      (forall page, cell_blind (count page)) ->
      built_without_state
        (NewLinkedPager json_Unmarshal ServiceClient AuthenticatedHeaders
           perigee_Request client initialURL0 count)
  | built_NewMarkerPager client initialURL0 mark count :
      (forall r, cell_blind (mark r)) ->
      (forall page, cell_blind (count page)) ->
      built_without_state
        (NewMarkerPager json_Unmarshal ServiceClient AuthenticatedHeaders
           perigee_Request client initialURL0 mark count).

End Built.

End Constructors_vocabulary.

Arguments action : clear implicits.

(* ================================================================== *)
(** * Vocabulary for runs *)

Section Runs_vocabulary.

Context {U : Type}.
Variable EqualFold : string -> string -> bool.

Definition is_fetch_call (e : Event U) : bool :=
  match e with EvFetch _ => true | _ => false end.

Definition is_count_call (e : Event U) : bool :=
  match e with EvCount _ => true | _ => false end.

Definition is_next_call (e : Event U) : bool :=
  match e with EvNextPageURL _ => true | _ => false end.

(** The number of calls of a kind in a run. *)
Definition calls (kind : Event U -> bool) (t : list (Event U)) : nat :=
  List.length (filter (fun e => kind e = true) t).

(** Every turn of [EachPage] on [p] with [handler] asks for a further
    turn, wherever it starts: the fetch and the count succeed, the count
    is not 0, the handler says to go on, and [NextPageURL] returns a URL
    that is not empty. *)
Definition always_continues (p : Pager U)
    (handler : Page U -> Act U (bool * error)) : Prop :=
  forall url0 w,
    exists page wf count wc wh next wn,
      fetchNextPage p url0 w = (Val (page, None), wf)
      /\ countPage p page wf = (Val (count, None), wc)
      /\ count <> 0%Z
      /\ handler page wc = (Val (true, None), wh)
      /\ NextPageURL EqualFold page wh = (Val (next, None), wn)
      /\ next <> "".

End Runs_vocabulary.

(* ================================================================== *)
(** * Examples *)

(** The URL [https://api.example.com/items?query], as [url.Parse] stores
    it. *)
Definition items_url (query : string) : url.URL :=
  url.mkURL "https" "" None "api.example.com" "/items" "" false false query "" "".

(** [strings.EqualFold] on strings of ASCII characters, which is all the
    examples compare. *)
Definition ascii_lower (c : ascii) : ascii :=
  if byte_between "A" "Z" c then ascii_of_N (N_of_ascii c + 32) else c.

Fixpoint EqualFold_ascii (s t : string) : bool :=
  match s, t with
  | EmptyString, EmptyString => true
  | String a s', String b t' =>
      Ascii.eqb (ascii_lower a) (ascii_lower b) && EqualFold_ascii s' t'
  | _, _ => false
  end.

Module Demo.

(** The outside world of the examples: the number of pages handled so
    far.  The service is stateless. *)
Definition U : Type := nat.

Definition w0 : World U := mkWorld 0 [].

Definition service_url : string := "https://api.example.com/items".
Definition second_url : string := "https://api.example.com/items?page=2".

(** [json.Unmarshal] on the two documents the examples send. *)
Definition json_Unmarshal (data : string) : JSON + GoError :=
  if String.eqb data "null" then inl JNull
  else if String.eqb data "{}" then inl (JObject [])
  else inr (ForeignError "invalid character").

Definition json_header : http.Header :=
  {[ "Content-Type" := ["application/json"] ]}.

Definition text_header : http.Header :=
  {[ "Content-Type" := ["text/plain; charset=utf-8"] ]}.

(** A response of the service to a GET of [service_url]. *)
Definition response (header : http.Header) (body : string) : http.Response :=
  http.mkResponse header (Some (http.mkReadCloser (body, None)))
    (Some (http.mkRequest (Some (items_url "")))).

(** A client without state, and a service that answers every request with
    the empty JSON object. *)
Definition AuthenticatedHeaders (client : unit) (u : U)
  : res (gmap string string) * U :=
  (Val {[ "X-Auth-Token" := "token" ]}, u).

Definition perigee_Request (method url0 : string) (opts : perigee_Options) (u : U)
  : res (option http.Response * error) * U :=
  (Val (Some (response json_header "{}"), None), u).

(** Two pages of a linked collection, as [LinkedPage] values. *)
Definition page1 : Page U :=
  Page_Linked
    (mkLastHTTPResponse (items_url "") json_header
       (Decoded (JObject
          [("items", JArray [JString "a"]);
           ("links", JObject [("next", JString second_url)])]))).

Definition page2 : Page U :=
  Page_Linked
    (mkLastHTTPResponse (items_url "page=2") json_header
       (Decoded (JObject [("items", JArray []); ("links", JObject [])]))).

Definition fetch (url0 : string) : Act U (Page U * error) :=
  outside (fun u =>
    (Val (if String.eqb url0 service_url then page1 else page2, None), u)).

(** The length of the array [items] of a page. *)
Definition items_of (page : Page U) : Z :=
  match page with
  | Page_Linked current =>
      match Body current with
      | Decoded (JObject members) =>
          match mapstructure.field_value EqualFold_ascii "items" members with
          | Some (JArray elems) => Z.of_nat (List.length elems)
          | _ => 0%Z
          end
      | _ => 0%Z
      end
  | _ => 0%Z
  end.

Definition count_items (page : Page U) : Act U (Z * error) :=
  outside (fun u => (Val (items_of page, None), u)).

Definition count_one (page : Page U) : Act U (Z * error) :=
  outside (fun u => (Val (1%Z, None), u)).

Definition count_negative (page : Page U) : Act U (Z * error) :=
  outside (fun u => (Val ((-1)%Z, None), u)).

(** Handlers: one that goes on, one that stops, both counting the page;
    and one that goes on and leaves the world alone. *)
Definition handler_continue (page : Page U) : Act U (bool * error) :=
  outside (fun u => (Val (true, None), S u)).

Definition handler_stop (page : Page U) : Act U (bool * error) :=
  outside (fun u => (Val (false, None), S u)).

Definition handler_quiet (page : Page U) : Act U (bool * error) :=
  outside (fun u => (Val (true, None), u)).

Definition pager : Pager U := NewPager service_url fetch count_items.

Definition pager_negative : Pager U := NewPager service_url fetch count_negative.

Definition pager_of_single_pages : Pager U :=
  NewPager ""
    (fun _ =>
       outside (fun u =>
         (Val (Page_Single (mkLastHTTPResponse (items_url "") text_header
                              (RawBytes "one page")), None), u)))
    count_one.

Definition linked_pager : Pager U :=
  NewLinkedPager json_Unmarshal unit AuthenticatedHeaders perigee_Request
    tt service_url count_one.

(** A [MarkerPage] whose extractor returns [mark]. *)
Definition marker_page (query mark : string) : MarkerPage U :=
  mkMarkerPage (mkLastHTTPResponse (items_url query) json_header (Decoded JNull))
    (fun _ => outside (fun u => (Val (mark, None), u))).

(** A page that links to itself, and a Pager that fetches it for every
    URL. *)
Definition page_cycle : Page U :=
  Page_Linked
    (mkLastHTTPResponse (items_url "") json_header
       (Decoded (JObject
          [("items", JArray [JString "a"]);
           ("links", JObject [("next", JString service_url)])]))).

Definition pager_cycle : Pager U :=
  NewPager service_url
    (fun _ => outside (fun u => (Val (page_cycle, None), u))) count_one.

(** Pagers whose fetch fails, whose count fails on a page of no items,
    and whose fetch yields the nil [Page] without an error. *)
Definition pager_fetch_fails : Pager U :=
  NewPager service_url
    (fun _ => outside (fun u => (Val (page1, Some (ForeignError "timeout")), u)))
    count_items.

Definition pager_count_fails : Pager U :=
  NewPager service_url fetch
    (fun _ => outside (fun u => (Val (0%Z, Some (ForeignError "no items")), u))).

Definition pager_of_nil_pages : Pager U :=
  NewPager service_url (fun _ => outside (fun u => (Val (Page_nil, None), u)))
    count_one.

(** A handler that fails while saying to stop. *)
Definition handler_fails (page : Page U) : Act U (bool * error) :=
  outside (fun u => (Val (false, Some (ForeignError "handler")), S u)).

(** Pages whose [NextPageURL] fails with a URL, and returns no URL. *)
Definition page_next_fails : Page U :=
  Page_other (outside (fun u => (Val (second_url, Some (ForeignError "next")), u))).

Definition page_last : Page U :=
  Page_other (outside (fun u => (Val ("", None), u))).

Definition pager_next_fails : Pager U :=
  NewPager service_url
    (fun _ => outside (fun u => (Val (page_next_fails, None), u))) count_one.

Definition pager_last : Pager U :=
  NewPager service_url
    (fun _ => outside (fun u => (Val (page_last, None), u))) count_one.

(** A service that cannot be reached. *)
Definition perigee_Request_fails (method url0 : string) (opts : perigee_Options)
    (u : U) : res (option http.Response * error) * U :=
  (Val (None, Some (ForeignError "connection refused")), u).

(** The document [{"links":{"next":"https://x/2"}}] and a decoder that
    knows it. *)
Definition quoted (s : string) : string :=
  String dquote (s ++ String dquote "").

Definition links_document : string :=
  "{" ++ quoted "links" ++ ":{" ++ quoted "next" ++ ":" ++ quoted "https://x/2"
  ++ "}}".

Definition links_members : list (string * JSON) :=
  [("links", JObject [("next", JString "https://x/2")])].

Definition json_Unmarshal_links (data : string) : JSON + GoError :=
  if String.eqb data links_document then inl (JObject links_members)
  else json_Unmarshal data.

End Demo.

(* ================================================================== *)
(** * Properties of the loop of [EachPage] *)

Section EachPage_properties.

Context {U : Type}.
Variable EqualFold : string -> string -> bool.

Implicit Types (p : Pager U) (handler : Page U -> Act U (bool * error)).
Implicit Types (w : World U) (t : list (Event U)) (page : Page U).

(** A loop that is still running after [k] turns goes on from where it
    is. *)
Lemma EachPage_loop_add p handler k n url0 w url1 w1 t1 :
  EachPage_loop EqualFold k p handler url0 w = (Running url1, w1, t1) ->
  EachPage_loop EqualFold (k + n) p handler url0 w =
    let '(o, w2, t2) := EachPage_loop EqualFold n p handler url1 w1 in
    (o, w2, (t1 ++ t2)%list).
Proof.
  revert url0 w t1.
  induction k as [|k IH]; intros url0 w t1 Hk; simpl in *.
  - injection Hk as -> -> <-. simpl.
    by destruct (EachPage_loop EqualFold n p handler _ _) as [[o w2] t2].
  - destruct (EachPage_body EqualFold p handler url0 w) as [[[[err|u]|] wa] ta];
      try discriminate.
    destruct (EachPage_loop EqualFold k p handler u wa) as [[o wb] tb] eqn:Hl.
    injection Hk as -> -> <-.
    rewrite (IH _ _ _ Hl).
    destruct (EachPage_loop EqualFold n p handler url1 w1) as [[o2 w2] t2].
    by rewrite app_assoc.
Qed.

(** A turn that ends the call ends the loop, whatever fuel is left. *)
Lemma EachPage_loop_return p handler k fuel url0 w url1 w1 t1 err w2 t2 :
  EachPage_loop EqualFold k p handler url0 w = (Running url1, w1, t1) ->
  EachPage_body EqualFold p handler url1 w1 = (Val (Return err), w2, t2) ->
  k < fuel ->
  EachPage_loop EqualFold fuel p handler url0 w = (Returned err, w2, (t1 ++ t2)%list).
Proof.
  intros Hk Hb Hlt.
  replace fuel with (k + S (fuel - S k)) by lia.
  rewrite (EachPage_loop_add _ _ _ _ _ _ _ _ _ Hk). simpl.
  by rewrite Hb.
Qed.

(** A page counted 0 ends the call before the handler. *)
Lemma EachPage_zero_count p handler k fuel w url1 w1 t1 page wf wc :
  EachPage EqualFold k p handler w = (Running url1, w1, t1) ->
  fetchNextPage p url1 w1 = (Val (page, None), wf) ->
  countPage p page wf = (Val (0%Z, None), wc) ->
  k < fuel ->
  EachPage EqualFold fuel p handler w
  = (Returned None, wc, (t1 ++ [EvFetch url1; EvCount page])%list).
Proof.
  intros Hk Hf Hc Hlt. unfold EachPage in *.
  eapply EachPage_loop_return; [exact Hk | | exact Hlt].
  unfold EachPage_body, bind, call, ret. rewrite Hf. simpl. rewrite Hc. reflexivity.
Qed.

(** C1: when [countPage] returns 0 and no error for a fetched page, the
    call of [EachPage] ends there: it returns nil, and the last calls it
    made are the fetch and the count of that page, so the handler is not
    invoked for it. *)
Theorem C1_empty_page_ends_traversal p handler k fuel w url1 w1 t1 page wf wc :
  EachPage EqualFold k p handler w = (Running url1, w1, t1) ->
  fetchNextPage p url1 w1 = (Val (page, None), wf) ->
  countPage p page wf = (Val (0%Z, None), wc) ->
  k < fuel ->
  EachPage EqualFold fuel p handler w
  = (Returned None, wc, (t1 ++ [EvFetch url1; EvCount page])%list).
Proof. apply EachPage_zero_count. Qed.

(** C2: when the handler returns [(false, nil)] for a page, the call of
    [EachPage] ends right after that invocation: it returns nil in the
    world the handler left, and the invocation is the last call of the
    run, so neither [NextPageURL] nor a further fetch follows. *)
Theorem C2_handler_false_ends_traversal
    p handler k fuel w url1 w1 t1 page wf count wc wh :
  EachPage EqualFold k p handler w = (Running url1, w1, t1) ->
  fetchNextPage p url1 w1 = (Val (page, None), wf) ->
  countPage p page wf = (Val (count, None), wc) ->
  count <> 0%Z ->
  handler page wc = (Val (false, None), wh) ->
  k < fuel ->
  EachPage EqualFold fuel p handler w
  = (Returned None, wh,
     (t1 ++ [EvFetch url1; EvCount page; EvHandler page])%list).
Proof.
  intros Hk Hf Hc Hnz Hh Hlt. unfold EachPage in *.
  eapply EachPage_loop_return; [exact Hk | | exact Hlt].
  unfold EachPage_body, bind, call, ret. rewrite Hf. simpl. rewrite Hc. simpl.
  destruct (Z.eqb_spec count 0) as [->|_]; [done|].
  rewrite Hh. reflexivity.
Qed.

(** The calls of one turn: a fetch, then possibly the count, the handler
    and [NextPageURL], each at most once and in this order. *)
Lemma EachPage_body_calls p handler url0 w r w1 t :
  EachPage_body EqualFold p handler url0 w = (r, w1, t) ->
  exists page,
    t = [EvFetch url0] \/ t = [EvFetch url0; EvCount page]
    \/ t = [EvFetch url0; EvCount page; EvHandler page]
    \/ t = [EvFetch url0; EvCount page; EvHandler page; EvNextPageURL page].
Proof.
  unfold EachPage_body, bind, call, ret.
  destruct (fetchNextPage p url0 w) as [[[page [e|]]|] wf]; simpl;
    try (intros [= <- <- <-]; exists Page_nil; by left).
  destruct (countPage p page wf) as [[[count [e|]]|] wc]; simpl;
    try (intros [= <- <- <-]; exists page; right; by left).
  destruct (count =? 0)%Z; simpl;
    try (intros [= <- <- <-]; exists page; right; by left).
  destruct (handler page wc) as [[[ok [e|]]|] wh]; simpl;
    try (intros [= <- <- <-]; exists page; right; right; by left).
  destruct ok; simpl;
    try (intros [= <- <- <-]; exists page; right; right; by left).
  destruct (NextPageURL EqualFold page wh) as [[[next [e|]]|] wn]; simpl;
    try (intros [= <- <- <-]; exists page; right; right; by right).
  destruct (String.eqb next ""); intros [= <- <- <-];
    exists page; right; right; by right.
Qed.

Lemma EachPage_body_handler_calls p handler url0 w r w1 t :
  EachPage_body EqualFold p handler url0 w = (r, w1, t) ->
  handler_calls t <= 1.
Proof.
  intros Hb. apply EachPage_body_calls in Hb as [page [-> | [-> | [-> | ->]]]];
    unfold handler_calls; simpl; lia.
Qed.

(** A turn on a [SinglePage] never asks for a further turn. *)
Lemma EachPage_body_single p handler url0 w :
  (forall page wf, fetchNextPage p url0 w = (Val (page, None), wf) ->
                   exists current, page = Page_Single current) ->
  forall url1 w1 t,
    EachPage_body EqualFold p handler url0 w <> (Val (Continue url1), w1, t).
Proof.
  intros Hsingle url1 w1 t.
  unfold EachPage_body, bind, call, ret.
  destruct (fetchNextPage p url0 w) as [[[page [e|]]|] wf]; simpl; try discriminate.
  destruct (Hsingle page wf eq_refl) as [current ->].
  destruct (countPage p _ wf) as [[[count [e|]]|] wc]; simpl; try discriminate.
  destruct (count =? 0)%Z; simpl; try discriminate.
  destruct (handler _ wc) as [[[ok [e|]]|] wh]; simpl; try discriminate.
  destruct ok; simpl; discriminate.
Qed.

(** C8: [SinglePage.NextPageURL] returns the empty string and no error,
    leaving the world as it is; and a call of [EachPage] on a Pager whose
    fetches yield [SinglePage] values ends within its first turn, having
    invoked the handler at most once. *)
Theorem C8_single_page_handler_at_most_once
    p handler (current : SinglePage) fuel w :
  (forall url0 w0 page wf,
      fetchNextPage p url0 w0 = (Val (page, None), wf) ->
      exists current, page = Page_Single current) ->
  0 < fuel ->
  SinglePage_NextPageURL current w = (Val ("", None), w)
  /\ exists o w1 t,
       EachPage EqualFold fuel p handler w = (o, w1, t)
       /\ (forall url0, o <> Running url0)
       /\ handler_calls t <= 1.
Proof.
  intros Hsingle Hfuel. split; [reflexivity|].
  destruct fuel as [|fuel]; [lia|].
  unfold EachPage. simpl.
  destruct (EachPage_body EqualFold p handler (initialURL p) w)
    as [[r wb] tb] eqn:Hb.
  pose proof (EachPage_body_handler_calls _ _ _ _ _ _ _ Hb) as Hcalls.
  destruct r as [[err|url1]|].
  - exists (Returned err), wb, tb. by repeat split.
  - exfalso. eapply EachPage_body_single; [|exact Hb].
    intros page wf. apply Hsingle.
  - exists Panicked, wb, tb. by repeat split.
Qed.

(** The run of a loop that takes a further turn starts with what it did
    so far followed by the calls of that turn. *)
Lemma EachPage_loop_turn p handler k fuel url0 w url1 w1 t1 r w2 t2 :
  EachPage_loop EqualFold k p handler url0 w = (Running url1, w1, t1) ->
  EachPage_body EqualFold p handler url1 w1 = (r, w2, t2) ->
  k < fuel ->
  exists o w3 t3,
    EachPage_loop EqualFold fuel p handler url0 w = (o, w3, (t1 ++ t2 ++ t3)%list).
Proof.
  intros Hk Hb Hlt.
  replace fuel with (k + S (fuel - S k)) by lia.
  rewrite (EachPage_loop_add _ _ _ _ _ _ _ _ _ Hk). simpl. rewrite Hb.
  destruct r as [[err|url2]|].
  - exists (Returned err), w2, []. by rewrite app_nil_r.
  - destruct (EachPage_loop EqualFold _ p handler url2 w2) as [[o w3] t3].
    by exists o, w3, t3.
  - exists Panicked, w2, []. by rewrite app_nil_r.
Qed.

(** C9: for a fetched page that [countPage] counts without error, the
    handler is invoked exactly when the count is not 0.  A count of 0 ends
    the call before the handler; any other count, negative ones included,
    is followed by the invocation of the handler on that page. *)
Theorem C9_only_zero_count_skips_handler
    p handler k fuel w url1 w1 t1 page wf count wc :
  EachPage EqualFold k p handler w = (Running url1, w1, t1) ->
  fetchNextPage p url1 w1 = (Val (page, None), wf) ->
  countPage p page wf = (Val (count, None), wc) ->
  k < fuel ->
  (count = 0%Z ->
   EachPage EqualFold fuel p handler w
   = (Returned None, wc, (t1 ++ [EvFetch url1; EvCount page])%list))
  /\ ((count < 0 \/ 0 < count)%Z ->
      exists o w3 t3,
        EachPage EqualFold fuel p handler w
        = (o, w3,
           (t1 ++ [EvFetch url1; EvCount page; EvHandler page] ++ t3)%list)).
Proof.
  intros Hk Hf Hc Hlt. split.
  - intros ->. by eapply EachPage_zero_count.
  - intros Hnz. unfold EachPage in *.
    destruct (EachPage_body EqualFold p handler url1 w1) as [[r w2] t2] eqn:Hb.
    destruct (EachPage_loop_turn _ _ _ _ _ _ _ _ _ _ _ _ Hk Hb Hlt)
      as (o & w3 & t3 & ->).
    revert Hb. unfold EachPage_body, bind, call, ret.
    rewrite Hf. simpl. rewrite Hc. simpl.
    destruct (Z.eqb_spec count 0) as [->|_]; [lia|].
    destruct (handler page wc) as [[[ok [e|]]|] wh]; simpl.
    + intros [= <- <- <-]. by exists o, w3, t3.
    + destruct ok; simpl.
      * destruct (NextPageURL EqualFold page wh) as [[[next [e|]]|] wn]; simpl.
        -- intros [= <- <- <-]. by exists o, w3, (EvNextPageURL page :: t3).
        -- destruct (String.eqb next ""); intros [= <- <- <-];
             by exists o, w3, (EvNextPageURL page :: t3).
        -- intros [= <- <- <-]. by exists o, w3, (EvNextPageURL page :: t3).
      * intros [= <- <- <-]. by exists o, w3, t3.
    + intros [= <- <- <-]. by exists o, w3, t3.
Qed.

End EachPage_properties.

(* ================================================================== *)
(** * Properties of [LinkedPage.NextPageURL] *)

Section LinkedPage_properties.

Context {U : Type}.
Variable EqualFold : string -> string -> bool.

Implicit Types (members : list (string * JSON)) (w : World U).

(** A key of an object with distinct keys is found by [MapIndex], before
    any case-insensitive search. *)
Lemma field_value_present members k v :
  NoDup members.*1 -> (k, v) ∈ members ->
  mapstructure.field_value EqualFold k members = Some v.
Proof.
  unfold mapstructure.field_value. intros Hnd Hin.
  assert (find (fun kv => String.eqb (fst kv) k) members = Some (k, v)) as ->;
    [|done].
  induction members as [|[k' v'] members IH]; [by apply elem_of_nil in Hin|].
  simpl in *. apply NoDup_cons in Hnd as [Hk' Hnd].
  apply elem_of_cons in Hin as [[= <- <-]|Hin].
  - by rewrite String.eqb_refl.
  - destruct (String.eqb_spec k' k) as [->|_].
    + exfalso. apply Hk'. apply list_elem_of_fmap. by exists (k, v).
    + by apply IH.
Qed.

(** A field is skipped when no key matches its name, exactly or under
    [strings.EqualFold]. *)
Lemma field_value_absent members k :
  (forall k' v, (k', v) ∈ members -> k' <> k /\ EqualFold k' k = false) ->
  mapstructure.field_value EqualFold k members = None.
Proof.
  unfold mapstructure.field_value. intros Habs.
  assert (forall f : string * JSON -> bool,
             (forall kv, kv ∈ members -> f kv = false) ->
             find f members = None) as Hfind.
  { intros f Hf. induction members as [|kv members IH]; [done|].
    simpl. rewrite Hf by apply list_elem_of_here.
    apply IH; intros; [|apply Hf; by apply list_elem_of_further].
    apply Habs with v. by apply list_elem_of_further. }
  rewrite !Hfind; [done| |].
  - intros [k' v] Hin. by apply Habs in Hin as [_ ?].
  - intros [k' v] Hin. apply Habs in Hin as [? _]. simpl.
    by destruct (String.eqb_spec k' k).
Qed.

(** C3, as the code has it.  For a body that is a JSON object with
    distinct keys at both levels:
    - [links.next] present as a string is returned as it is;
    - the result is the empty string and no error when the [links] object
      has no key matching [next] or holds null there, and also when the
      body has no key matching [links] or holds null there: a missing
      [links] is not an error;
    - an error is returned when [links] is neither null nor an object, or
      [next] neither null nor a string.
    A body that is not an object is an error, unless it is nil. *)
Theorem C3_linked_next_page_url (u : url.URL) (h : http.Header) members w :
  NoDup members.*1 ->
  let page body := mkLastHTTPResponse u h body in
  let result body := LinkedPage_NextPageURL EqualFold (page body) w in
  (forall l next,
      NoDup l.*1 -> ("links", JObject l) ∈ members ->
      ("next", JString next) ∈ l ->
      result (Decoded (JObject members)) = (Val (next, None), w))
  /\ (forall l,
      NoDup l.*1 -> ("links", JObject l) ∈ members ->
      mapstructure.no_field EqualFold "next" l \/ ("next", JNull) ∈ l ->
      result (Decoded (JObject members)) = (Val ("", None), w))
  /\ (mapstructure.no_field EqualFold "links" members \/ ("links", JNull) ∈ members ->
      result (Decoded (JObject members)) = (Val ("", None), w))
  /\ (forall v,
      ("links", v) ∈ members -> is_null_or_object v = false ->
      result (Decoded (JObject members))
      = (Val ("", Some (MapstructureError ["links"])), w))
  /\ (forall l v,
      NoDup l.*1 -> ("links", JObject l) ∈ members ->
      ("next", v) ∈ l -> is_null_or_string v = false ->
      result (Decoded (JObject members))
      = (Val ("", Some (MapstructureError ["links.next"])), w))
  /\ result (Decoded JNull) = (Val ("", None), w)
  /\ (forall body,
      match body with Decoded (JObject _) | Decoded JNull => False | _ => True end ->
      result body = (Val ("", Some (MapstructureError [""])), w)).
Proof.
  intros Hnd page result. subst page result.
  unfold LinkedPage_NextPageURL, mapstructure.Decode,
    mapstructure.decode_response, mapstructure.decode_Links. simpl.
  repeat split.
  - intros l next Hl Hlinks Hnext.
    rewrite (field_value_present _ _ _ Hnd Hlinks).
    by rewrite (field_value_present _ _ _ Hl Hnext).
  - intros l Hl Hlinks [Habs|Hnull];
      rewrite (field_value_present _ _ _ Hnd Hlinks).
    + by rewrite (field_value_absent _ _ Habs).
    + by rewrite (field_value_present _ _ _ Hl Hnull).
  - intros [Habs|Hnull].
    + by rewrite (field_value_absent _ _ Habs).
    + by rewrite (field_value_present _ _ _ Hnd Hnull).
  - intros v Hlinks Hv. rewrite (field_value_present _ _ _ Hnd Hlinks).
    by destruct v.
  - intros l v Hl Hlinks Hnext Hv.
    rewrite (field_value_present _ _ _ Hnd Hlinks).
    rewrite (field_value_present _ _ _ Hl Hnext).
    by destruct v.
  - intros [[]|]; done.
Qed.

End LinkedPage_properties.

(* ================================================================== *)
(** * Properties of [RememberHTTPResponse] *)

Section RememberHTTPResponse_properties.

Variable json_Unmarshal : string -> JSON + GoError.

(** C7: for a response whose body can be read to the end, the body is
    handed to the JSON decoder exactly when the [Content-Type] header is
    [application/json]; with any other value the bytes read are stored as
    they are.  A failure to read the body or to decode it is returned
    together with the empty [LastHTTPResponse], and an error never comes
    with anything but the empty [LastHTTPResponse]. *)
Theorem C7_remember_http_response (resp : http.Response) body rawBody err :
  http.Body_ resp = Some body ->
  http.ReadAll body = (rawBody, err) ->
  let contentType := http.Get (http.Header_ resp) "Content-Type" in
  let remembered := RememberHTTPResponse json_Unmarshal resp in
  (forall snapshot e,
      remembered = Val (snapshot, Some e) -> snapshot = LastHTTPResponse_zero)
  /\ (forall e, err = Some e -> remembered = Val (LastHTTPResponse_zero, Some e))
  /\ (forall e,
      err = None -> contentType = "application/json" ->
      json_Unmarshal rawBody = inr e ->
      remembered = Val (LastHTTPResponse_zero, Some e))
  /\ (forall requestURL,
      http.Request resp = Some (http.mkRequest (Some requestURL)) ->
      err = None ->
      (forall v,
          contentType = "application/json" -> json_Unmarshal rawBody = inl v ->
          remembered
          = Val (mkLastHTTPResponse requestURL (http.Header_ resp) (Decoded v),
                 None))
      /\ (contentType <> "application/json" ->
          remembered
          = Val (mkLastHTTPResponse requestURL (http.Header_ resp)
                   (RawBytes rawBody),
                 None))).
Proof.
  intros Hbody Hread contentType remembered. subst contentType remembered.
  unfold RememberHTTPResponse. rewrite Hbody, Hread.
  split; [|split; [|split]].
  - destruct err as [e0|]; [by intros ? ? [= <- _]|].
    destruct (String.eqb _ "application/json").
    + destruct (json_Unmarshal rawBody); [|by intros ? ? [= <- _]].
      by destruct (http.Request resp) as [[[?|]]|].
    + by destruct (http.Request resp) as [[[?|]]|].
  - by intros e ->.
  - intros e -> -> He. simpl. by rewrite He.
  - intros requestURL Hrequest ->. rewrite Hrequest. split.
    + intros v -> Hv. simpl. by rewrite Hv.
    + intros Hct.
      by destruct (String.eqb_spec (http.Get (http.Header_ resp) "Content-Type")
                     "application/json").
Qed.

End RememberHTTPResponse_properties.

(* ================================================================== *)
(** * Properties of [NewSinglePager] *)

Section NewSinglePager_properties.

Context {U : Type}.
Variable EqualFold : string -> string -> bool.
Variable json_Unmarshal : string -> JSON + GoError.
Variable ServiceClient : Type.
Variable AuthenticatedHeaders : ServiceClient -> U -> res (gmap string string) * U.
Variable perigee_Request :
  string -> string -> perigee_Options -> U -> res (option http.Response * error) * U.

Local Abbreviation request' := (request ServiceClient AuthenticatedHeaders perigee_Request).
Local Abbreviation single' :=
  (single json_Unmarshal ServiceClient AuthenticatedHeaders perigee_Request).
Local Abbreviation NewSinglePager' :=
  (NewSinglePager json_Unmarshal ServiceClient AuthenticatedHeaders perigee_Request).

Implicit Types (w : World U) (client : ServiceClient).

(** [request] leaves the cells alone. *)
Lemma request_cells client url0 w :
  cells (snd (request' client url0 w)) = cells w.
Proof.
  unfold request, outside.
  destruct (AuthenticatedHeaders client (ext w)) as [[headers|] u1]; [|done].
  simpl.
  destruct (perigee_Request "GET" url0 _ u1) as [[[resp [e|]]|] u2]; try done.
  by destruct resp.
Qed.

(** Once [consumed] is set, the closure returns [ErrPageNotAvailable]
    and touches nothing. *)
Lemma single_consumed l client onlyURL url0 w :
  read_cell l w = true ->
  single' l client onlyURL url0 w
  = (Val (SinglePage_zero, Some ErrPageNotAvailable), w).
Proof. unfold single. by intros ->. Qed.

(** The closure leaves [consumed] set, whatever it found. *)
Lemma single_sets_consumed l client onlyURL url0 w :
  l < List.length (cells w) ->
  read_cell l (snd (single' l client onlyURL url0 w)) = true.
Proof.
  intros Hl. unfold single.
  destruct (read_cell l w) eqn:Hc; [done|]. simpl.
  assert (read_cell l (snd (request' client onlyURL (write_cell l true w))) = true)
    as Hset.
  { unfold read_cell. rewrite request_cells. simpl.
    by rewrite list_lookup_insert_eq. }
  destruct (request' client onlyURL (write_cell l true w))
    as [[[resp [e|]]|] w1]; try done.
  destruct (RememberHTTPResponse json_Unmarshal resp) as [[cp [e|]]|]; done.
Qed.

Lemma invocations_consumed l client onlyURL acts w :
  read_cell l w = true ->
  let '(rs, w1) := invocations (single' l client onlyURL) acts w in
  Forall (fun r => r = Val (SinglePage_zero, Some ErrPageNotAvailable)) rs
  /\ List.length rs = List.length (filter (fun a => is_invoke a = true) acts)
  /\ w1 = mkWorld (elsewhere_only acts (ext w)) (cells w).
Proof.
  revert w. induction acts as [|[url0|f] acts IH]; intros w Hc; simpl.
  - by destruct w.
  - rewrite (single_consumed _ _ _ _ _ Hc).
    specialize (IH w Hc).
    destruct (invocations _ acts w) as [rs w1].
    destruct IH as (Hall & Hlen & ->).
    repeat split; [by constructor | simpl; by f_equal].
  - specialize (IH (mkWorld (f (ext w)) (cells w)) Hc).
    destruct (invocations _ acts _) as [rs w1].
    destruct IH as (Hall & Hlen & ->). by repeat split.
Qed.

(** C6: the first invocation of the fetch function of a Pager built by
    [NewSinglePager] performs the request for [onlyURL], whatever URL it
    is given; every later invocation, whatever happens elsewhere in
    between, returns [ErrPageNotAvailable] with the empty [SinglePage] and
    leaves the world as it is, so that the outside world only sees what
    was done elsewhere. *)
Theorem C6_single_pager_fetches_once
    client onlyURL countPage0 (w0 : World U) url0 acts :
  let '(p, w1) := NewSinglePager' client onlyURL countPage0 w0 in
  let '(r1, w2) := fetchNextPage p url0 w1 in
  let '(rs, w3) := invocations (fetchNextPage p) acts w2 in
  (r1, ext w2)
  = (let '(rr, wr) := request' client onlyURL w0 in
     (match rr with
      | Panic => Panic
      | Val (resp, Some e) => Val (SinglePage_zero, Some e)
      | Val (resp, None) =>
          match RememberHTTPResponse json_Unmarshal resp with
          | Panic => Panic
          | Val (cp, Some e) => Val (SinglePage_zero, Some e)
          | Val (cp, None) => Val (Page_Single cp, None)
          end
      end, ext wr))
  /\ Forall (fun r => r = Val (SinglePage_zero, Some ErrPageNotAvailable)) rs
  /\ List.length rs = List.length (filter (fun a => is_invoke a = true) acts)
  /\ ext w3 = elsewhere_only acts (ext w2).
Proof.
  unfold NewSinglePager. simpl.
  set (l := List.length (cells w0)).
  set (w1 := mkWorld (ext w0) (cells w0 ++ [false])).
  assert (l < List.length (cells w1)) as Hl.
  { subst l w1. simpl. rewrite length_app. simpl. lia. }
  pose proof (single_sets_consumed l client onlyURL url0 w1 Hl) as Hset.
  assert (read_cell l w1 = false) as Hfresh.
  { subst l w1. unfold read_cell. simpl.
    by rewrite lookup_app_r, Nat.sub_diag by lia. }
  destruct (single' l client onlyURL url0 w1) as [r1 w2] eqn:Hfirst.
  simpl in Hset.
  pose proof (invocations_consumed l client onlyURL acts w2 Hset) as Hlater.
  destruct (invocations _ acts w2) as [rs w3].
  destruct Hlater as (Hall & Hlen & ->).
  split; [|by repeat split].
  revert Hfirst. unfold single. rewrite Hfresh. simpl.
  assert (request' client onlyURL (write_cell l true w1)
          = let '(rr, wr) := request' client onlyURL w0 in
            (rr, mkWorld (ext wr) (<[l := true]> (cells w1)))) as ->.
  { unfold request, outside, write_cell. simpl.
    destruct (AuthenticatedHeaders client (ext w0)) as [[headers|] u1]; [|done].
    simpl.
    destruct (perigee_Request "GET" onlyURL _ u1) as [[[resp [e|]]|] u2];
      try done.
    by destruct resp. }
  destruct (request' client onlyURL w0) as [[[resp [e|]]|] wr];
    try by intros [= <- <-].
  destruct (RememberHTTPResponse json_Unmarshal resp) as [[cp [e|]]|];
    by intros [= <- <-].
Qed.

(** A page fetched without error by the closure is a [SinglePage]. *)
Lemma single_returns_SinglePage l client onlyURL url0 w page w1 :
  single' l client onlyURL url0 w = (Val (page, None), w1) ->
  exists current, page = Page_Single current.
Proof.
  unfold single. destruct (read_cell l w); [done|]. simpl.
  destruct (request' client onlyURL _) as [[[resp [e|]]|] w2]; try done.
  destruct (RememberHTTPResponse json_Unmarshal resp) as [[cp [e|]]|];
    try done.
  intros [= <- _]. by exists cp.
Qed.

Lemma cell_blind_cells {A} (f : Act U A) w :
  cell_blind f -> cells (snd (f w)) = cells w.
Proof.
  intros Hf. rewrite (Hf w). by destruct (f (mkWorld (ext w) [])).
Qed.

(** A turn of [EachPage] on a Pager of [NewSinglePager] leaves [consumed]
    set and asks for no further turn. *)
Lemma single_pager_turn l client onlyURL countPage0
    (handler : Page U -> Act U (bool * error)) url0 w :
  (forall page, cell_blind (countPage0 page)) ->
  (forall page, cell_blind (handler page)) ->
  l < List.length (cells w) ->
  let p := mkPager "" (single' l client onlyURL) countPage0 in
  let '(r, w1, t) := EachPage_body EqualFold p handler url0 w in
  read_cell l w1 = true /\ forall url1, r <> Val (Continue url1).
Proof.
  intros Hcount Hhandler Hl p.
  destruct (EachPage_body EqualFold p handler url0 w) as [[r w1] t] eqn:Hb.
  split.
  - revert Hb. unfold EachPage_body, bind, call, ret. simpl.
    pose proof (single_sets_consumed l client onlyURL url0 w Hl) as Hset.
    destruct (single' l client onlyURL url0 w) as [[[page [e|]]|] wf] eqn:Hs;
      simpl in *; try by intros [= _ <- _].
    apply single_returns_SinglePage in Hs as [current ->].
    pose proof (cell_blind_cells _ wf (Hcount (Page_Single current))) as Hcc.
    destruct (countPage0 _ wf) as [[[count [e|]]|] wc];
      simpl in *; try (intros [= _ <- _]; unfold read_cell in *; congruence).
    destruct (count =? 0)%Z; simpl;
      try (intros [= _ <- _]; unfold read_cell in *; congruence).
    pose proof (cell_blind_cells _ wc (Hhandler (Page_Single current))) as Hhc.
    destruct (handler _ wc) as [[[ok [e|]]|] wh];
      simpl in *; try (intros [= _ <- _]; unfold read_cell in *; congruence).
    destruct ok; simpl; intros [= _ <- _]; unfold read_cell in *; congruence.
  - intros url1 ->.
    eapply (EachPage_body_single EqualFold p handler url0 w); [|exact Hb].
    intros page wf. simpl. apply single_returns_SinglePage.
Qed.

(** Once a call of [EachPage] has taken a turn on a Pager of
    [NewSinglePager], any later call returns [ErrPageNotAvailable] after
    its first fetch, which performs no request; the handler is not
    invoked. *)
Lemma single_pager_second_call client onlyURL countPage0
    (handler : Page U -> Act U (bool * error)) (w0 : World U) fuel1 fuel2 :
  (forall page, cell_blind (countPage0 page)) ->
  (forall page, cell_blind (handler page)) ->
  let '(p, w1) := NewSinglePager' client onlyURL countPage0 w0 in
  let '(o1, w2, t1) := EachPage EqualFold (S fuel1) p handler w1 in
  EachPage EqualFold (S fuel2) p handler w2
  = (Returned (Some ErrPageNotAvailable), w2, [EvFetch ""]).
Proof.
  intros Hcount Hhandler. unfold NewSinglePager, EachPage. simpl.
  set (l := List.length (cells w0)).
  set (w1 := mkWorld (ext w0) (cells w0 ++ [false])).
  assert (l < List.length (cells w1)) as Hl.
  { subst l w1. simpl. rewrite length_app. simpl. lia. }
  pose proof (single_pager_turn l client onlyURL countPage0 handler "" w1
                Hcount Hhandler Hl) as Hturn.
  simpl in Hturn.
  destruct (EachPage_body EqualFold _ handler "" w1) as [[r w2] t1].
  destruct Hturn as [Hset Hstop].
  assert (EachPage_body EqualFold
            (mkPager "" (single' l client onlyURL) countPage0) handler "" w2
          = (Val (Return (Some ErrPageNotAvailable)), w2, [EvFetch ""])) as Hagain.
  { unfold EachPage_body, bind, call, ret. simpl.
    by rewrite (single_consumed _ _ _ _ _ Hset). }
  destruct r as [[e|url1]|]; [by rewrite Hagain | by destruct (Hstop url1)
                              | by rewrite Hagain].
Qed.


End NewSinglePager_properties.

(* ================================================================== *)
(** * Pagers that keep no state *)

Section Stateless_pagers.

Context {U : Type}.
Variable EqualFold : string -> string -> bool.
Variable json_Unmarshal : string -> JSON + GoError.
Variable ServiceClient : Type.
Variable AuthenticatedHeaders : ServiceClient -> U -> res (gmap string string) * U.
Variable perigee_Request :
  string -> string -> perigee_Options -> U -> res (option http.Response * error) * U.

Local Abbreviation request' :=
  (request ServiceClient AuthenticatedHeaders perigee_Request).
Local Abbreviation NewLinkedPager' :=
  (NewLinkedPager json_Unmarshal ServiceClient AuthenticatedHeaders perigee_Request).
Local Abbreviation NewMarkerPager' :=
  (NewMarkerPager json_Unmarshal ServiceClient AuthenticatedHeaders perigee_Request).
Local Abbreviation NewSinglePager' :=
  (NewSinglePager json_Unmarshal ServiceClient AuthenticatedHeaders perigee_Request).
Local Abbreviation built_without_state' :=
  (built_without_state json_Unmarshal ServiceClient AuthenticatedHeaders
     perigee_Request).

Implicit Types (w : World U) (client : ServiceClient) (p : Pager U).
Implicit Types (handler : Page U -> Act U (bool * error)) (page : Page U).

Lemma cell_blind_outside {A} (g : U -> res A * U) : cell_blind (outside g).
Proof. intros w. unfold outside. simpl. by destruct (g (ext w)). Qed.

Lemma cell_blind_request client url0 : cell_blind (request' client url0).
Proof.
  intros w. unfold request, outside. simpl.
  destruct (AuthenticatedHeaders client (ext w)) as [[headers|] u1]; [|done].
  simpl.
  destruct (perigee_Request "GET" url0 _ u1) as [[[resp [e|]]|] u2]; try done.
  by destruct resp.
Qed.

(** A blind call started with an empty store ends with an empty store. *)
Lemma cell_blind_empty {A} (f : Act U A) u r w1 :
  cell_blind f -> f (mkWorld u []) = (r, w1) -> w1 = mkWorld (ext w1) [].
Proof.
  intros Hf Hrun. specialize (Hf (mkWorld u [])). simpl in Hf.
  rewrite Hrun in Hf. by injection Hf.
Qed.

Lemma run_blind_empty {A} (m : World U -> A * World U * list (Event U)) u r w1 t :
  run_blind m -> m (mkWorld u []) = (r, w1, t) -> w1 = mkWorld (ext w1) [].
Proof.
  intros Hm Hrun. specialize (Hm (mkWorld u [])). simpl in Hm.
  rewrite Hrun in Hm. by injection Hm.
Qed.

Lemma run_blind_ret {A} (a : A) : run_blind (ret (U:=U) a).
Proof. by intros [u c]. Qed.

Lemma run_blind_call {A} ev (f : Act U A) : cell_blind f -> run_blind (call ev f).
Proof.
  intros Hf w. unfold call. rewrite (Hf w).
  by destruct (f (mkWorld (ext w) [])).
Qed.

Lemma run_blind_bind {A B} (m : M U A) (k : A -> M U B) :
  run_blind m ->
  (forall a w w1 t, m w = (Val a, w1, t) -> run_blind (k a)) ->
  run_blind (bind m k).
Proof.
  intros Hm Hk w. unfold bind. rewrite (Hm w).
  destruct (m (mkWorld (ext w) [])) as [[[a|] w1] t1] eqn:Hrun; [|done].
  rewrite (Hk a _ _ _ Hrun (mkWorld (ext w1) (cells w))). simpl.
  rewrite (run_blind_empty _ _ _ _ _ Hm Hrun) at 2.
  by destruct (k a (mkWorld (ext w1) [])) as [[r2 w2] t2].
Qed.

Lemma call_returns {A} ev (f : Act U A) w a w1 t :
  call ev f w = (Val a, w1, t) -> f w = (Val a, w1).
Proof. unfold call. destruct (f w). by intros [= -> -> _]. Qed.

Lemma cell_blind_NextPageURL page :
  page_outside page -> cell_blind (NextPageURL EqualFold page).
Proof.
  destruct page as [|current|current|current|f]; simpl; intros Hpage.
  - by intros [u c].
  - by intros [u c].
  - intros [u c]. unfold LinkedPage_NextPageURL.
    destruct (mapstructure.Decode _ _ _) as [r [e|]]; [done|].
    by destruct (mapstructure.Next _).
  - intros w. unfold MarkerPage_NextPageURL.
    rewrite (Hpage (MarkerPage_LastHTTPResponse current) w).
    by destruct (lastMark current _ (mkWorld (ext w) [])) as [[[mark [e|]]|] w1].
  - done.
Qed.

Lemma built_without_state_blind p :
  built_without_state' p ->
  (forall url0, cell_blind (fetchNextPage p url0))
  /\ (forall url0 w page e w1,
         fetchNextPage p url0 w = (Val (page, e), w1) -> page_outside page)
  /\ (forall page, cell_blind (countPage p page)).
Proof.
  intros [initialURL0 fetch count Hfetch Hpages Hcount
         |client initialURL0 count Hcount
         |client initialURL0 mark count Hmark Hcount]; simpl.
  - done.
  - repeat split; [| |done].
    + intros url0 w. unfold NewLinkedPager_fetchNextPage.
      rewrite (cell_blind_request client url0 w).
      destruct (request' client url0 (mkWorld (ext w) []))
        as [[[resp [e|]]|] w1]; try done.
      by destruct (RememberHTTPResponse json_Unmarshal resp) as [[cp [e|]]|].
    + intros url0 w page e w1. unfold NewLinkedPager_fetchNextPage.
      destruct (request' client url0 w) as [[[resp [e0|]]|] w2];
        try by intros [= <- _ _].
      destruct (RememberHTTPResponse json_Unmarshal resp) as [[cp [e0|]]|];
        by intros [= <- _ _].
  - repeat split; [| |done].
    + intros url0 w. unfold NewMarkerPager_fetchNextPage.
      rewrite (cell_blind_request client url0 w).
      destruct (request' client url0 (mkWorld (ext w) []))
        as [[[resp [e|]]|] w1]; try done.
      by destruct (RememberHTTPResponse json_Unmarshal resp) as [[cp [e|]]|].
    + intros url0 w page e w1. unfold NewMarkerPager_fetchNextPage.
      destruct (request' client url0 w) as [[[resp [e0|]]|] w2];
        try by intros [= <- _ _].
      destruct (RememberHTTPResponse json_Unmarshal resp) as [[cp [e0|]]|];
        by intros [= <- _ _].
Qed.

(** A turn of the loop of such a Pager is blind to the cells. *)
Lemma run_blind_EachPage_body p handler url0 :
  built_without_state' p ->
  (forall page, cell_blind (handler page)) ->
  run_blind (EachPage_body EqualFold p handler url0).
Proof.
  intros Hp Hhandler.
  apply built_without_state_blind in Hp as (Hfetch & Hpages & Hcount).
  unfold EachPage_body.
  apply run_blind_bind; [by apply run_blind_call|].
  intros [page [e|]] wa wb ta Hfetched; [apply run_blind_ret|].
  apply call_returns in Hfetched. apply Hpages in Hfetched.
  apply run_blind_bind; [by apply run_blind_call|].
  intros [count [e|]] _ _ _ _; [apply run_blind_ret|].
  destruct (count =? 0)%Z; [apply run_blind_ret|].
  apply run_blind_bind; [by apply run_blind_call|].
  intros [ok [e|]] _ _ _ _; [apply run_blind_ret|].
  destruct ok; simpl; [|apply run_blind_ret].
  apply run_blind_bind;
    [by apply run_blind_call, cell_blind_NextPageURL|].
  intros [next [e|]] _ _ _ _; [apply run_blind_ret|].
  destruct (String.eqb next ""); apply run_blind_ret.
Qed.

Lemma run_blind_EachPage_loop p handler fuel url0 :
  built_without_state' p ->
  (forall page, cell_blind (handler page)) ->
  run_blind (EachPage_loop EqualFold fuel p handler url0).
Proof.
  intros Hp Hhandler. revert url0.
  induction fuel as [|fuel IH]; intros url0 w; simpl; [by destruct w|].
  pose proof (run_blind_EachPage_body p handler url0 Hp Hhandler) as Hbody.
  rewrite (Hbody w).
  destruct (EachPage_body EqualFold p handler url0 (mkWorld (ext w) []))
    as [[[[e|url1]|] w1] t1] eqn:Hrun; try done.
  rewrite (IH url1 (mkWorld (ext w1) (cells w))). simpl.
  rewrite (run_blind_empty _ _ _ _ _ Hbody Hrun) at 2.
  by destruct (EachPage_loop EqualFold fuel p handler url1 (mkWorld (ext w1) []))
    as [[o w2] t2].
Qed.

(** C5, as the code has it.  A Pager built by [NewPager],
    [NewLinkedPager] or [NewMarkerPager] keeps no state: a call of
    [EachPage] starts from [initialURL], leaves the store of the package
    as it is, and runs as the state of the outside world alone dictates,
    so that a call made with the outside world in the same state runs
    exactly alike.  A Pager built by [NewSinglePager] is used up by the
    first call: any later call returns [ErrPageNotAvailable] after a first
    fetch that performs no request, and does not invoke the handler. *)
Theorem C5_pager_reuse handler :
  (forall page, cell_blind (handler page)) ->
  (forall p fuel w o w1 t,
      built_without_state' p ->
      EachPage EqualFold fuel p handler w = (o, w1, t) ->
      cells w1 = cells w
      /\ forall w',
           ext w' = ext w ->
           EachPage EqualFold fuel p handler w'
           = (o, mkWorld (ext w1) (cells w'), t))
  /\ (forall client onlyURL count w0 fuel1 fuel2,
      (forall page, cell_blind (count page)) ->
      let '(p, w1) := NewSinglePager' client onlyURL count w0 in
      let '(o1, w2, t1) := EachPage EqualFold (S fuel1) p handler w1 in
      EachPage EqualFold (S fuel2) p handler w2
      = (Returned (Some ErrPageNotAvailable), w2, [EvFetch ""])).
Proof.
  intros Hhandler. split.
  - intros p fuel w o w1 t Hp Hrun. unfold EachPage in *.
    pose proof (run_blind_EachPage_loop p handler fuel (initialURL p)
                  Hp Hhandler) as Hblind.
    rewrite (Hblind w) in Hrun.
    destruct (EachPage_loop EqualFold fuel p handler (initialURL p)
                (mkWorld (ext w) [])) as [[o0 w2] t2] eqn:Hcanon.
    injection Hrun as -> <- ->. split; [done|].
    intros w' Hext. rewrite (Hblind w'), Hext, Hcanon. done.
  - intros client onlyURL count w0 fuel1 fuel2 Hcount.
    by apply single_pager_second_call.
Qed.

End Stateless_pagers.

(* ================================================================== *)
(** * Properties of the query functions of [net/url] *)

Section url_properties.

Import url.

Lemma string_app_cons x (a b : string) : String x a ++ b = String x (a ++ b).
Proof. reflexivity. Qed.

Lemma string_app_nil_l (a : string) : "" ++ a = a.
Proof. reflexivity. Qed.

Lemma string_app_assoc (a b c : string) : (a ++ b) ++ c = a ++ (b ++ c).
Proof.
  induction a as [|x a IH]; [done|]. by rewrite !string_app_cons, IH.
Qed.

Lemma string_app_nil_r (a : string) : a ++ "" = a.
Proof. induction a as [|x a IH]; [done|]. by rewrite string_app_cons, IH. Qed.

Lemma string_length_app (a b : string) :
  String.length (a ++ b) = String.length a + String.length b.
Proof.
  induction a as [|x a IH]; [done|]. rewrite string_app_cons. simpl. by rewrite IH.
Qed.

Lemma Contains_app (a b : string) c :
  Contains (a ++ b) c = Contains a c || Contains b c.
Proof.
  induction a as [|x a IH]; [done|]. rewrite string_app_cons. simpl.
  rewrite IH. by destruct (Ascii.eqb x c).
Qed.

Lemma Cut_found (s r : string) sep :
  Contains s sep = false -> Cut (s ++ String sep r) sep = (s, r, true).
Proof.
  induction s as [|x s IH].
  - rewrite string_app_nil_l. simpl. by rewrite Ascii.eqb_refl.
  - rewrite string_app_cons. simpl.
    destruct (Ascii.eqb x sep); [done|]. simpl. intros Hs. by rewrite IH.
Qed.

Lemma Cut_not_found (s : string) sep :
  Contains s sep = false -> Cut s sep = (s, "", false).
Proof.
  induction s as [|x s IH]; simpl; [done|].
  destruct (Ascii.eqb x sep); [done|]. simpl. intros Hs. by rewrite IH.
Qed.

(** ** Escaping one byte of a query component, and reading it back *)

Lemma all_bytes_complete c : In c all_bytes.
Proof.
  unfold all_bytes. apply in_map_iff. exists (nat_of_ascii c). split.
  - apply ascii_nat_embedding.
  - apply in_seq. pose proof (nat_ascii_bounded c). lia.
Qed.

Lemma escape_byte_ok_all c : escape_byte_ok c = true.
Proof.
  assert (forallb escape_byte_ok all_bytes = true) as Hall
    by (vm_compute; reflexivity).
  rewrite forallb_forall in Hall. apply Hall, all_bytes_complete.
Qed.

Lemma escape_byte_shape c :
  (escape_byte encodeQueryComponent c = "+" /\ c = " "%char)
  \/ (exists a b,
         escape_byte encodeQueryComponent c = String "%" (String a (String b ""))
         /\ ishex a = true /\ ishex b = true
         /\ ascii_of_N (N.lor (N.shiftl (unhex a) 4) (unhex b)) = c
         /\ is_separator a = false /\ is_separator b = false)
  \/ (escape_byte encodeQueryComponent c = String c ""
      /\ Ascii.eqb c "%" = false /\ Ascii.eqb c "+" = false
      /\ is_separator c = false).
Proof.
  pose proof (escape_byte_ok_all c) as Hok. unfold escape_byte_ok in Hok.
  destruct (escape_byte encodeQueryComponent c) as [|x [|a [|b [|? ?]]]];
    try discriminate.
  - destruct (Ascii.eqb x "+") eqn:Hplus.
    + left. apply Ascii.eqb_eq in Hplus, Hok. by subst.
    + right; right.
      apply andb_prop in Hok as [Hok Hsep]. apply andb_prop in Hok as [Hx Hpct].
      apply Ascii.eqb_eq in Hx as ->.
      repeat split; [by apply negb_true_iff | done | by apply negb_true_iff].
  - right; left. exists a, b.
    repeat (apply andb_prop in Hok as [Hok ?]).
    apply Ascii.eqb_eq in Hok as ->.
    repeat split; try done.
    + by apply Ascii.eqb_eq.
    + by apply negb_true_iff.
    + by apply negb_true_iff.
Qed.

Lemma unescape_scan_escape_byte c r :
  unescape_scan (escape_byte encodeQueryComponent c ++ r) encodeQueryComponent
  = unescape_scan r encodeQueryComponent.
Proof.
  destruct (escape_byte_shape c)
    as [[-> ->] | [(a & b & -> & Ha & Hb & _) | (-> & Hpct & Hplus & _)]].
  - reflexivity.
  - rewrite !string_app_cons, string_app_nil_l. simpl. by rewrite Ha, Hb.
  - rewrite string_app_cons, string_app_nil_l. simpl. by rewrite Hpct, Hplus.
Qed.

Lemma unescape_build_escape_byte c r :
  unescape_build (escape_byte encodeQueryComponent c ++ r) encodeQueryComponent
  = String c (unescape_build r encodeQueryComponent).
Proof.
  destruct (escape_byte_shape c)
    as [[-> ->] | [(a & b & -> & _ & _ & Hc & _) | (-> & Hpct & Hplus & _)]].
  - reflexivity.
  - rewrite !string_app_cons, string_app_nil_l. simpl. by rewrite Hc.
  - rewrite string_app_cons, string_app_nil_l. simpl. by rewrite Hpct, Hplus.
Qed.

(** The separators of a query never appear in an escaped component. *)
Lemma Contains_escape_byte c sep :
  is_separator sep = true ->
  Contains (escape_byte encodeQueryComponent c) sep = false.
Proof.
  intros Hsep.
  assert (forall x, is_separator x = false -> Ascii.eqb x sep = false) as Hne.
  { intros x Hx. apply Ascii.eqb_neq. intros ->. congruence. }
  assert (forall x r, Contains (String x r) sep
                      = Ascii.eqb x sep || Contains r sep) as Hcons by done.
  destruct (escape_byte_shape c)
    as [[-> ->] | [(a & b & -> & _ & _ & _ & Ha & Hb) | (-> & _ & _ & Hc)]];
    rewrite ?Hcons.
  - by rewrite (Hne "+"%char).
  - by rewrite (Hne a Ha), (Hne b Hb), (Hne "%"%char).
  - by rewrite (Hne c Hc).
Qed.

Lemma QueryUnescape_QueryEscape s : QueryUnescape (QueryEscape s) = (s, None).
Proof.
  unfold QueryUnescape, QueryEscape, unescape.
  assert (unescape_scan (escape s encodeQueryComponent) encodeQueryComponent = None)
    as ->.
  { induction s as [|c s IH]; [done|]. simpl.
    by rewrite unescape_scan_escape_byte. }
  f_equal. induction s as [|c s IH]; [done|]. simpl.
  by rewrite unescape_build_escape_byte, IH.
Qed.

Lemma Contains_QueryEscape s sep :
  is_separator sep = true -> Contains (QueryEscape s) sep = false.
Proof.
  intros Hsep. unfold QueryEscape. induction s as [|c s IH]; [done|]. simpl.
  by rewrite Contains_app, Contains_escape_byte, IH.
Qed.

(** ** Parsing an encoded query *)

Lemma encode_pair_length kv : 0 < String.length (encode_pair kv).
Proof.
  unfold encode_pair. rewrite !string_length_app.
  change (String.length "=") with 1. lia.
Qed.

Lemma encode_pair_nonempty kv : String.eqb (encode_pair kv) "" = false.
Proof.
  pose proof (encode_pair_length kv) as Hlen.
  destruct (String.eqb_spec (encode_pair kv) "") as [Heq|]; [|done].
  rewrite Heq in Hlen. simpl in Hlen. lia.
Qed.

Lemma join_amp_cons p ps :
  join_amp (p :: ps) = match ps with [] => p | _ => p ++ "&" ++ join_amp ps end.
Proof. reflexivity. Qed.

Lemma join_amp_length kvs :
  List.length kvs <= String.length (join_amp (map encode_pair kvs)).
Proof.
  induction kvs as [|kv kvs IH]; [done|].
  pose proof (encode_pair_length kv) as Hkv.
  destruct kvs as [|kv' kvs].
  - change (1 <= String.length (encode_pair kv)). lia.
  - change (S (List.length (kv' :: kvs))
            <= String.length
                 (encode_pair kv ++ "&" ++ join_amp (map encode_pair (kv' :: kvs)))).
    rewrite !string_length_app. change (String.length "&") with 1. lia.
Qed.

Lemma parseQuery_loop_S fuel m query err :
  parseQuery_loop (S fuel) m query err
  = if String.eqb query "" then (m, err)
    else
      let '(key, query', _) := Cut query "&" in
      if Contains key ";" then
        parseQuery_loop fuel m query' (Some InvalidSemicolonError)
      else if String.eqb key "" then parseQuery_loop fuel m query' err
      else
        let '(key, value, _) := Cut key "=" in
        let '(key, err1) := QueryUnescape key in
        match err1 with
        | Some _ => parseQuery_loop fuel m query' (first_error err err1)
        | None =>
            let '(value, err1) := QueryUnescape value in
            match err1 with
            | Some _ => parseQuery_loop fuel m query' (first_error err err1)
            | None =>
                parseQuery_loop fuel
                  (<[key := (default [] (m !! key) ++ [value])%list]> m) query' err
            end
        end.
Proof. reflexivity. Qed.

Lemma Contains_encode_pair kv sep :
  sep = "&"%char \/ sep = ";"%char ->
  Contains (encode_pair kv) sep = false.
Proof.
  intros Hsep. unfold encode_pair.
  rewrite !Contains_app, !Contains_QueryEscape by (by destruct Hsep as [-> | ->]).
  by destruct Hsep as [-> | ->].
Qed.

Lemma Cut_encode_pair k v :
  Cut (encode_pair (k, v)) "=" = (QueryEscape k, QueryEscape v, true).
Proof. by apply (Cut_found (QueryEscape k) (QueryEscape v) "="), Contains_QueryEscape. Qed.

(** The loop of [parseQuery] reads the pairs of an encoded query back, one
    per turn. *)
Lemma parseQuery_loop_pairs kvs fuel m err :
  List.length kvs <= fuel ->
  parseQuery_loop fuel m (join_amp (map encode_pair kvs)) err
  = (fold_left add_value kvs m, err).
Proof.
  revert fuel m. induction kvs as [|[k v] kvs IH]; intros fuel m Hfuel.
  - by destruct fuel.
  - destruct fuel as [|fuel]; [simpl in Hfuel; lia|].
    simpl in Hfuel. rewrite parseQuery_loop_S, map_cons, join_amp_cons.
    assert (String.eqb
              match map encode_pair kvs with
              | [] => encode_pair (k, v)
              | _ :: _ => encode_pair (k, v) ++ "&" ++ join_amp (map encode_pair kvs)
              end "" = false) as ->.
    { destruct (map encode_pair kvs); [apply encode_pair_nonempty|].
      by destruct (encode_pair (k, v)) eqn:He;
        [pose proof (encode_pair_nonempty (k, v)) as Hn; rewrite He in Hn|]. }
    assert (exists found,
               Cut match map encode_pair kvs with
                   | [] => encode_pair (k, v)
                   | _ :: _ =>
                       encode_pair (k, v) ++ "&" ++ join_amp (map encode_pair kvs)
                   end "&"
               = (encode_pair (k, v), join_amp (map encode_pair kvs), found))
      as [found ->].
    { destruct (map encode_pair kvs) as [|p ps] eqn:Hps.
      - exists false. apply Cut_not_found, Contains_encode_pair. by left.
      - exists true.
        apply (Cut_found (encode_pair (k, v)) (join_amp (p :: ps)) "&"),
          Contains_encode_pair. by left. }
    rewrite Contains_encode_pair by (by right).
    rewrite encode_pair_nonempty.
    rewrite Cut_encode_pair, !QueryUnescape_QueryEscape.
    rewrite IH by lia. reflexivity.
Qed.

(** ** [Encode] writes the pairs under the sorted keys *)

Lemma fold_write_values k vs buf :
  fold_left (fun buf val => write_pair buf (k, val)) vs buf
  = fold_left write_pair (map (pair k) vs) buf.
Proof.
  revert buf. induction vs as [|val vs IH]; intros buf; [done|]. simpl. apply IH.
Qed.

Lemma fold_write_keys (v : Values) keys buf :
  fold_left
    (fun buf k =>
       fold_left (fun buf val => write_pair buf (k, val)) (default [] (v !! k)) buf)
    keys buf
  = fold_left write_pair (pairs_of v keys) buf.
Proof.
  revert buf. induction keys as [|k keys IH]; intros buf; [done|].
  unfold pairs_of. simpl. rewrite fold_left_app, <- fold_write_values. apply IH.
Qed.

Lemma Encode_fold v :
  Encode v = fold_left write_pair (pairs_of v (sorted_keys v)) "".
Proof. apply (fold_write_keys v). Qed.

Lemma write_pair_empty kv : write_pair "" kv = encode_pair kv.
Proof. reflexivity. Qed.

Lemma write_pair_cons c buf kv :
  write_pair (String c buf) kv = String c (buf ++ "&" ++ encode_pair kv).
Proof.
  unfold write_pair. change (0 <? String.length (String c buf))%nat with true.
  cbv iota. by rewrite string_app_assoc, string_app_cons.
Qed.

Lemma fold_write_pair kvs buf :
  fold_left write_pair kvs buf
  = if String.eqb buf "" then join_amp (map encode_pair kvs)
    else match kvs with
         | [] => buf
         | _ => buf ++ "&" ++ join_amp (map encode_pair kvs)
         end.
Proof.
  revert buf. induction kvs as [|kv kvs IH]; intros buf.
  - simpl. by destruct (String.eqb_spec buf "").
  - change (fold_left write_pair (kv :: kvs) buf)
      with (fold_left write_pair kvs (write_pair buf kv)).
    rewrite IH, map_cons, join_amp_cons.
    destruct buf as [|c buf].
    + rewrite write_pair_empty, encode_pair_nonempty.
      change (String.eqb "" "") with true. cbv iota. by destruct kvs.
    + rewrite write_pair_cons.
      change (String.eqb (String c ?s) "") with false. cbv iota.
      destruct kvs as [|kv' kvs]; [by rewrite string_app_cons|].
      rewrite map_cons. by rewrite !string_app_cons, !string_app_assoc.
Qed.

Lemma Encode_pairs v :
  Encode v = join_amp (map encode_pair (pairs_of v (sorted_keys v))).
Proof. by rewrite Encode_fold, fold_write_pair. Qed.

(** ** The pairs of a map add up to the map *)

Lemma fold_add_value_key k vs (m : Values) :
  fold_left add_value (map (pair k) vs) m
  = match vs with
    | [] => m
    | _ => <[k := (default [] (m !! k) ++ vs)%list]> m
    end.
Proof.
  revert m. induction vs as [|x vs IH]; intros m; [done|].
  simpl. rewrite IH. unfold add_value. simpl.
  destruct vs as [|y vs]; [done|].
  rewrite lookup_insert_eq, insert_insert_eq. simpl.
  by rewrite <- app_assoc.
Qed.

Lemma fold_add_value_keys (v : Values) keys (m : Values) k' :
  NoDup keys ->
  (forall k, k ∈ keys -> m !! k = None) ->
  fold_left add_value (pairs_of v keys) m !! k'
  = if decide (k' ∈ keys)
    then match v !! k' with
         | Some (x :: vs) => Some (x :: vs)
         | _ => None
         end
    else m !! k'.
Proof.
  revert m. induction keys as [|k keys IH]; intros m Hnd Hfresh.
  - destruct (decide (k' ∈ [])) as [Hin|_]; [by apply elem_of_nil in Hin|done].
  - apply NoDup_cons in Hnd as [Hk Hnd].
    change (pairs_of v (k :: keys))
      with (map (pair k) (default [] (v !! k)) ++ pairs_of v keys)%list.
    rewrite fold_left_app, fold_add_value_key.
    rewrite (Hfresh k) by apply list_elem_of_here.
    change (default [] None ++ default [] (v !! k))%list
      with (default [] (v !! k)).
    rewrite IH; [|done|].
    + destruct (decide (k' ∈ keys)) as [Hin|Hnin].
      * destruct (decide (k' ∈ k :: keys)) as [_|Hout]; [done|].
        destruct Hout. by apply list_elem_of_further.
      * destruct (decide (k' = k)) as [->|Hne].
        -- destruct (decide (k ∈ k :: keys)) as [_|Hout];
             [|destruct Hout; apply list_elem_of_here].
           destruct (v !! k) as [[|x vs]|]; simpl.
           ++ by apply Hfresh, list_elem_of_here.
           ++ by rewrite lookup_insert_eq.
           ++ by apply Hfresh, list_elem_of_here.
        -- destruct (decide (k' ∈ k :: keys)) as [[?|?]%elem_of_cons|_];
             [done|done|].
           destruct (default [] (v !! k)); [done|].
           by rewrite lookup_insert_ne.
    + intros k0 Hk0.
      destruct (default [] (v !! k)).
      * by apply Hfresh, list_elem_of_further.
      * rewrite lookup_insert_ne by (intros ->; done).
        by apply Hfresh, list_elem_of_further.
Qed.

Lemma sorted_keys_elem_of (v : Values) k : k ∈ sorted_keys v <-> is_Some (v !! k).
Proof.
  unfold sorted_keys. rewrite merge_sort_Permutation.
  rewrite list_elem_of_fmap. split.
  - intros [[k0 vs] [-> Hin]]. apply elem_of_map_to_list in Hin. by exists vs.
  - intros [vs Hvs]. exists (k, vs). split; [done|].
    by apply elem_of_map_to_list.
Qed.

Lemma sorted_keys_NoDup (v : Values) : NoDup (sorted_keys v).
Proof.
  unfold sorted_keys. rewrite merge_sort_Permutation.
  apply NoDup_fst_map_to_list.
Qed.

(** The values of a map whose lists are not empty survive [Encode]
    followed by [ParseQuery]. *)
Lemma ParseQuery_Encode (v : Values) :
  nonempty_values v -> ParseQuery (Encode v) = (v, None).
Proof.
  intros Hne. unfold ParseQuery, parseQuery. rewrite Encode_pairs.
  rewrite parseQuery_loop_pairs by (etrans; [apply join_amp_length|lia]).
  f_equal. apply map_eq. intros k.
  rewrite fold_add_value_keys;
    [|apply sorted_keys_NoDup|intros; apply lookup_empty].
  destruct (decide (k ∈ sorted_keys v)) as [Hin|Hnin].
  - apply sorted_keys_elem_of in Hin as [vs Hvs]. rewrite Hvs.
    destruct vs; [by destruct (Hne k)|done].
  - rewrite lookup_empty. symmetry. apply eq_None_not_Some.
    by rewrite <- sorted_keys_elem_of.
Qed.

Lemma parseQuery_loop_nonempty fuel (m : Values) query err :
  nonempty_values m -> nonempty_values (fst (parseQuery_loop fuel m query err)).
Proof.
  revert m query err. induction fuel as [|fuel IH]; intros m query err Hm; [done|].
  rewrite parseQuery_loop_S.
  destruct (String.eqb query ""); [done|].
  destruct (Cut query "&") as [[key query'] found].
  destruct (Contains key ";"); [by apply IH|].
  destruct (String.eqb key ""); [by apply IH|].
  destruct (Cut key "=") as [[key1 value] found1].
  destruct (QueryUnescape key1) as [key2 [e|]]; [by apply IH|].
  destruct (QueryUnescape value) as [value1 [e|]]; [by apply IH|].
  apply IH. intros k.
  destruct (decide (key2 = k)) as [->|Hk].
  - rewrite lookup_insert_eq. intros [= Habs]. by apply app_eq_nil in Habs as [_ ?].
  - rewrite lookup_insert_ne by done. apply Hm.
Qed.

Lemma Query_nonempty u : nonempty_values (Query u).
Proof.
  unfold Query, ParseQuery, parseQuery. apply parseQuery_loop_nonempty.
  intros k. by rewrite lookup_empty.
Qed.

Lemma Set_nonempty (v : Values) key value :
  nonempty_values v -> nonempty_values (Set_ v key value).
Proof.
  intros Hv k. unfold Set_. destruct (decide (key = k)) as [->|Hk].
  - by rewrite lookup_insert_eq.
  - rewrite lookup_insert_ne by done. apply Hv.
Qed.

#[local] Instance string_le_total : Total string_le.
Proof.
  intros a b. unfold string_le.
  destruct (String.leb_total a b) as [-> | ->]; [by left|by right].
Qed.

Lemma sorted_keys_Sorted (v : Values) : Sorted string_le (sorted_keys v).
Proof. apply (Sorted_merge_sort string_le). Qed.

End url_properties.

(* ================================================================== *)
(** * Properties of [MarkerPage.NextPageURL] *)

Section MarkerPage_properties.

Context {U : Type}.

Implicit Types (current : MarkerPage U) (w : World U) (u : url.URL).

(** Reading the query of the next URL gives the values of the stored
    URL with [marker] set. *)
Lemma Query_MarkerPage_nextURL u mark :
  url.Query (MarkerPage_nextURL u mark) = url.Set_ (url.Query u) "marker" mark.
Proof.
  unfold MarkerPage_nextURL, url.Query at 1. simpl.
  by rewrite ParseQuery_Encode by apply Set_nonempty, Query_nonempty.
Qed.

Lemma MarkerPage_nextURL_marker u mark :
  url.Query (MarkerPage_nextURL u mark) !! "marker" = Some [mark].
Proof. rewrite Query_MarkerPage_nextURL. apply lookup_insert_eq. Qed.

Lemma MarkerPage_nextURL_others u mark k :
  k <> "marker" ->
  url.Query (MarkerPage_nextURL u mark) !! k = url.Query u !! k.
Proof.
  intros Hk. rewrite Query_MarkerPage_nextURL. by apply lookup_insert_ne.
Qed.

Lemma MarkerPage_NextPageURL_ok current mark w w1 :
  lastMark current (MarkerPage_LastHTTPResponse current) w = (Val (mark, None), w1) ->
  MarkerPage_NextPageURL current w
  = (Val (url.String_
            (MarkerPage_nextURL (URL (MarkerPage_LastHTTPResponse current)) mark),
          None), w1).
Proof. intros Hmark. unfold MarkerPage_NextPageURL. by rewrite Hmark. Qed.

(** C4: when [lastMark] succeeds, [NextPageURL] returns the stored URL
    with the query parameter [marker] set to the extracted value, once,
    and the other query parameters as they were.  For
    [https://api.example.com/items?limit=10] and [item-42] the result is
    [https://api.example.com/items?limit=10&marker=item-42], and so it is
    when the stored URL already has [marker=old]. *)
Theorem C4_marker_page_next_url current mark w w1 :
  lastMark current (MarkerPage_LastHTTPResponse current) w = (Val (mark, None), w1) ->
  let u := URL (MarkerPage_LastHTTPResponse current) in
  let next := MarkerPage_nextURL u mark in
  MarkerPage_NextPageURL current w = (Val (url.String_ next, None), w1)
  /\ url.Query next !! "marker" = Some [mark]
  /\ (forall k, k <> "marker" -> url.Query next !! k = url.Query u !! k)
  /\ (u = items_url "limit=10" -> mark = "item-42" ->
      url.String_ next = "https://api.example.com/items?limit=10&marker=item-42")
  /\ (u = items_url "limit=10&marker=old" -> mark = "item-42" ->
      url.String_ next = "https://api.example.com/items?limit=10&marker=item-42").
Proof.
  intros Hmark u next. subst u next. repeat split.
  - by apply MarkerPage_NextPageURL_ok.
  - apply MarkerPage_nextURL_marker.
  - intros k. apply MarkerPage_nextURL_others.
  - intros -> ->. by vm_compute.
  - intros -> ->. by vm_compute.
Qed.

Lemma MarkerPage_nextURL_String u mark :
  url.String_ (MarkerPage_nextURL u mark)
  = url.String_hier u ++ "?" ++ url.RawQuery (MarkerPage_nextURL u mark)
    ++ url.String_fragment u.
Proof.
  pose proof (MarkerPage_nextURL_marker u mark) as Hmarker.
  unfold url.String_, url.String_fragment.
  change (url.String_hier (MarkerPage_nextURL u mark)) with (url.String_hier u).
  change (url.Fragment (MarkerPage_nextURL u mark)) with (url.Fragment u).
  change (url.EscapedFragment (MarkerPage_nextURL u mark))
    with (url.EscapedFragment u).
  change (url.ForceQuery (MarkerPage_nextURL u mark)) with (url.ForceQuery u).
  assert (url.nonempty (url.RawQuery (MarkerPage_nextURL u mark)) = true) as ->.
  { unfold url.nonempty, url.Query in *.
    destruct (String.eqb_spec (url.RawQuery (MarkerPage_nextURL u mark)) "")
      as [Heq|]; [|done].
    rewrite Heq in Hmarker. by vm_compute in Hmarker. }
  rewrite orb_true_r.
  destruct (url.nonempty (url.Fragment u)).
  - by rewrite !string_app_assoc.
  - by rewrite string_app_nil_r.
Qed.

(** C10: when [lastMark] succeeds, [NextPageURL] returns the stored URL
    with nothing but its query changed: what [String] writes before and
    after the query is what it writes for the stored URL, every field but
    [RawQuery] is as it was, every parameter other than [marker] keeps its
    values, and the query lists the parameters under their keys in sorted
    order, whatever the order in the stored URL. *)
Theorem C10_marker_page_changes_query_only current mark w w1 :
  lastMark current (MarkerPage_LastHTTPResponse current) w = (Val (mark, None), w1) ->
  let u := URL (MarkerPage_LastHTTPResponse current) in
  let next := MarkerPage_nextURL u mark in
  let values := url.Set_ (url.Query u) "marker" mark in
  MarkerPage_NextPageURL current w
  = (Val (url.String_hier u ++ "?" ++ url.RawQuery next ++ url.String_fragment u,
          None), w1)
  /\ (url.Scheme next = url.Scheme u /\ url.Opaque next = url.Opaque u
      /\ url.User next = url.User u /\ url.Host next = url.Host u
      /\ url.Path next = url.Path u /\ url.RawPath next = url.RawPath u
      /\ url.Fragment next = url.Fragment u
      /\ url.RawFragment next = url.RawFragment u)
  /\ (forall k, k <> "marker" -> url.Query next !! k = url.Query u !! k)
  /\ (exists keys,
         Sorted url.string_le keys /\ NoDup keys
         /\ (forall k, k ∈ keys <-> k = "marker" \/ is_Some (url.Query u !! k))
         /\ url.RawQuery next
            = url.join_amp (map url.encode_pair (url.pairs_of values keys)))
  /\ (forall u', url.Query u' = url.Query u ->
                 url.RawQuery (MarkerPage_nextURL u' mark) = url.RawQuery next).
Proof.
  intros Hmark u next values. subst u next values. repeat split.
  - rewrite (MarkerPage_NextPageURL_ok _ _ _ _ Hmark).
    by rewrite MarkerPage_nextURL_String.
  - intros k. apply MarkerPage_nextURL_others.
  - set (u := URL (MarkerPage_LastHTTPResponse current)).
    exists (url.sorted_keys (url.Set_ (url.Query u) "marker" mark)).
    repeat split.
    + apply sorted_keys_Sorted.
    + apply sorted_keys_NoDup.
    + intros Hin. apply sorted_keys_elem_of in Hin. unfold url.Set_ in Hin.
      destruct (decide (k = "marker")) as [->|Hk]; [by left|right].
      by rewrite lookup_insert_ne in Hin.
    + intros Hk. apply sorted_keys_elem_of. unfold url.Set_.
      destruct (decide (k = "marker")) as [->|Hne].
      * by rewrite lookup_insert_eq.
      * rewrite lookup_insert_ne by done. by destruct Hk.
    + apply Encode_pairs.
  - intros u' Hu'. unfold MarkerPage_nextURL. simpl. by rewrite Hu'.
Qed.

End MarkerPage_properties.

(* ================================================================== *)
(** * The properties on the examples *)

(** C1 on the two-page collection: the second page is empty. *)
Lemma C1_empty_page_ends_traversal_witness :
  EachPage EqualFold_ascii 2 Demo.pager Demo.handler_continue Demo.w0
  = (Returned None, mkWorld 1 [],
     ([EvFetch Demo.service_url; EvCount Demo.page1; EvHandler Demo.page1;
       EvNextPageURL Demo.page1]
      ++ [EvFetch Demo.second_url; EvCount Demo.page2])%list).
Proof.
  apply (C1_empty_page_ends_traversal EqualFold_ascii Demo.pager
           Demo.handler_continue 1 2 Demo.w0 Demo.second_url (mkWorld 1 []) _
           Demo.page2 (mkWorld 1 []) (mkWorld 1 []));
    [reflexivity | reflexivity | reflexivity | lia].
Defined.

(** C2 on the two-page collection: the handler stops on the first page,
    which has a next page. *)
Lemma C2_handler_false_ends_traversal_witness :
  EachPage EqualFold_ascii 5 Demo.pager Demo.handler_stop Demo.w0
  = (Returned None, mkWorld 1 [],
     ([] ++ [EvFetch Demo.service_url; EvCount Demo.page1;
             EvHandler Demo.page1])%list).
Proof.
  apply (C2_handler_false_ends_traversal EqualFold_ascii Demo.pager
           Demo.handler_stop 0 5 Demo.w0 Demo.service_url Demo.w0 []
           Demo.page1 Demo.w0 1%Z Demo.w0 (mkWorld 1 []));
    [reflexivity | reflexivity | reflexivity | lia | reflexivity | lia].
Defined.

(** C9 on a Pager that counts -1: the handler is invoked. *)
Lemma C9_only_zero_count_skips_handler_witness :
  exists o w3 t3,
    EachPage EqualFold_ascii 1 Demo.pager_negative Demo.handler_continue Demo.w0
    = (o, w3,
       ([] ++ [EvFetch Demo.service_url; EvCount Demo.page1; EvHandler Demo.page1]
        ++ t3)%list).
Proof.
  apply (C9_only_zero_count_skips_handler EqualFold_ascii Demo.pager_negative
           Demo.handler_continue 0 1 Demo.w0 Demo.service_url Demo.w0 []
           Demo.page1 Demo.w0 (-1)%Z Demo.w0);
    [reflexivity | reflexivity | reflexivity | lia | left; lia].
Defined.

(** C8 on a Pager whose fetch yields a [SinglePage]. *)
Lemma C8_single_page_handler_at_most_once_witness :
  SinglePage_NextPageURL LastHTTPResponse_zero Demo.w0 = (Val ("", None), Demo.w0)
  /\ exists o w1 t,
       EachPage EqualFold_ascii 3 Demo.pager_of_single_pages
         Demo.handler_continue Demo.w0 = (o, w1, t)
       /\ (forall url0, o <> Running url0)
       /\ handler_calls t <= 1.
Proof.
  apply (C8_single_page_handler_at_most_once EqualFold_ascii
           Demo.pager_of_single_pages Demo.handler_continue
           LastHTTPResponse_zero 3 Demo.w0); [|lia].
  intros url0 w page wf [= <- _]. eexists. reflexivity.
Defined.

(** C3 on the body of the round trip of the specification. *)
Lemma C3_linked_next_page_url_witness :
  LinkedPage_NextPageURL EqualFold_ascii
    (mkLastHTTPResponse (items_url "") Demo.json_header
       (Decoded (JObject [("links", JObject [("next", JString "https://x/2")])])))
    Demo.w0
  = (Val ("https://x/2", None), Demo.w0).
Proof.
  assert (forall (k : string) (v : JSON), NoDup ([(k, v)] : list (string * JSON)).*1)
    as Hnd.
  { intros k v. apply NoDup_singleton. }
  apply (proj1 (C3_linked_next_page_url EqualFold_ascii (items_url "")
                  Demo.json_header
                  [("links", JObject [("next", JString "https://x/2")])]
                  Demo.w0 (Hnd _ _))
           [("next", JString "https://x/2")] "https://x/2" (Hnd _ _));
    apply list_elem_of_here.
Defined.

(** C3 fails on a body without [links]: no error is returned. *)
Lemma C3_missing_links_is_no_error :
  LinkedPage_NextPageURL EqualFold_ascii
    (mkLastHTTPResponse (items_url "") Demo.json_header
       (Decoded (JObject [("servers", JArray [])])))
    Demo.w0
  = (Val ("", None), Demo.w0).
Proof. reflexivity. Qed.

(** C4 on the first example of the specification. *)
Lemma C4_marker_page_next_url_witness :
  MarkerPage_NextPageURL (Demo.marker_page "limit=10" "item-42") Demo.w0
  = (Val ("https://api.example.com/items?limit=10&marker=item-42", None), Demo.w0).
Proof.
  destruct (C4_marker_page_next_url (Demo.marker_page "limit=10" "item-42")
              "item-42" Demo.w0 Demo.w0 eq_refl) as (Hnext & _ & _ & Hexample & _).
  rewrite Hnext. rewrite (Hexample eq_refl eq_refl). reflexivity.
Defined.

(** C10 on a stored URL whose parameters are not in sorted order. *)
Lemma C10_marker_page_changes_query_only_witness :
  MarkerPage_NextPageURL (Demo.marker_page "b=2&a=1" "m") Demo.w0
  = (Val ("https://api.example.com/items?a=1&b=2&marker=m", None), Demo.w0).
Proof.
  rewrite (proj1 (C10_marker_page_changes_query_only
                    (Demo.marker_page "b=2&a=1" "m") "m" Demo.w0 Demo.w0 eq_refl)).
  reflexivity.
Defined.

(** C7 on a JSON response and on a response of another content type. *)
Lemma C7_remember_http_response_witness :
  RememberHTTPResponse Demo.json_Unmarshal (Demo.response Demo.json_header "{}")
  = Val (mkLastHTTPResponse (items_url "") Demo.json_header (Decoded (JObject [])),
         None)
  /\ RememberHTTPResponse Demo.json_Unmarshal (Demo.response Demo.text_header "{}")
     = Val (mkLastHTTPResponse (items_url "") Demo.text_header (RawBytes "{}"),
            None).
Proof.
  split.
  - apply (proj1 (proj2 (proj2 (proj2
             (C7_remember_http_response Demo.json_Unmarshal
                (Demo.response Demo.json_header "{}")
                (http.mkReadCloser ("{}", None)) "{}" None eq_refl eq_refl)))
             (items_url "") eq_refl eq_refl)); reflexivity.
  - apply (proj2 (proj2 (proj2 (proj2
             (C7_remember_http_response Demo.json_Unmarshal
                (Demo.response Demo.text_header "{}")
                (http.mkReadCloser ("{}", None)) "{}" None eq_refl eq_refl)))
             (items_url "") eq_refl eq_refl)). discriminate.
Defined.

(** The fetch function of a Pager of [NewSinglePager], invoked twice with
    different URLs: a page, then [ErrPageNotAvailable]. *)
Example single_pager_two_fetches :
  let '(p, w1) :=
    NewSinglePager Demo.json_Unmarshal unit Demo.AuthenticatedHeaders
      Demo.perigee_Request tt Demo.service_url Demo.count_one Demo.w0 in
  let '(r1, w2) := fetchNextPage p "" w1 in
  let '(r2, w3) := fetchNextPage p Demo.second_url w2 in
  r1 = Val (Page_Single (mkLastHTTPResponse (items_url "") Demo.json_header
                           (Decoded (JObject []))), None)
  /\ r2 = Val (SinglePage_zero, Some ErrPageNotAvailable)
  /\ w3 = w2.
Proof. vm_compute. repeat split. Qed.

(** C5 fails on a Pager of [NewSinglePager]: with the outside world in
    the same state, the first call hands the page to the handler and
    returns nil, the second returns [ErrPageNotAvailable]. *)
Lemma C5_single_pager_is_used_up :
  let '(p, w1) :=
    NewSinglePager Demo.json_Unmarshal unit Demo.AuthenticatedHeaders
      Demo.perigee_Request tt Demo.service_url Demo.count_one Demo.w0 in
  let '(o1, w2, t1) := EachPage EqualFold_ascii 1 p Demo.handler_quiet w1 in
  let '(o2, w3, t2) := EachPage EqualFold_ascii 1 p Demo.handler_quiet w2 in
  o1 = Returned None /\ handler_calls t1 = 1
  /\ ext w2 = ext w1
  /\ o2 = Returned (Some ErrPageNotAvailable) /\ handler_calls t2 = 0.
Proof. vm_compute. repeat split. Qed.

(** C5, as the code has it, on a Pager of [NewLinkedPager]: a call in a
    world with another store runs like the call in [Demo.w0]. *)
Lemma C5_pager_reuse_witness :
  EachPage EqualFold_ascii 2 Demo.linked_pager Demo.handler_continue
    (mkWorld 0 [true])
  = (Returned None, mkWorld 1 [true],
     [EvFetch Demo.service_url;
      EvCount (Page_Linked (mkLastHTTPResponse (items_url "") Demo.json_header
                              (Decoded (JObject []))));
      EvHandler (Page_Linked (mkLastHTTPResponse (items_url "") Demo.json_header
                                (Decoded (JObject []))));
      EvNextPageURL (Page_Linked (mkLastHTTPResponse (items_url "")
                                    Demo.json_header (Decoded (JObject []))))]).
Proof.
  assert (forall page : Page Demo.U, cell_blind (Demo.handler_continue page))
    as Hhandler.
  { intros page w. reflexivity. }
  assert (built_without_state Demo.json_Unmarshal unit Demo.AuthenticatedHeaders
            Demo.perigee_Request Demo.linked_pager) as Hbuilt.
  { apply built_NewLinkedPager. intros page w. reflexivity. }
  apply (proj2 (proj1 (C5_pager_reuse EqualFold_ascii Demo.json_Unmarshal unit
                         Demo.AuthenticatedHeaders Demo.perigee_Request
                         Demo.handler_continue Hhandler)
                  Demo.linked_pager 2 Demo.w0 _ (mkWorld 1 []) _ Hbuilt eq_refl)
           (mkWorld 0 [true]) eq_refl).
Defined.

(* ================================================================== *)
(** * How a turn of [EachPage] ends *)

Section EachPage_outcomes.

Context {U : Type}.
Variable EqualFold : string -> string -> bool.

Implicit Types (p : Pager U) (handler : Page U -> Act U (bool * error)).
Implicit Types (w : World U) (t : list (Event U)) (page : Page U).

(** A turn that panics ends the loop, whatever fuel is left. *)
Lemma EachPage_loop_panic p handler k fuel url0 w url1 w1 t1 w2 t2 :
  EachPage_loop EqualFold k p handler url0 w = (Running url1, w1, t1) ->
  EachPage_body EqualFold p handler url1 w1 = (Panic, w2, t2) ->
  k < fuel ->
  EachPage_loop EqualFold fuel p handler url0 w = (Panicked, w2, (t1 ++ t2)%list).
Proof.
  intros Hk Hb Hlt.
  replace fuel with (k + S (fuel - S k)) by lia.
  rewrite (EachPage_loop_add _ _ _ _ _ _ _ _ _ _ Hk). simpl.
  by rewrite Hb.
Qed.

(** X1: An error of the fetch is returned as it is; the page that came with
    it is ignored: it is neither counted nor handed to the handler. *)
Theorem EachPage_fetch_error p handler k fuel w url1 w1 t1 page e wf :
  EachPage EqualFold k p handler w = (Running url1, w1, t1) ->
  fetchNextPage p url1 w1 = (Val (page, Some e), wf) ->
  k < fuel ->
  EachPage EqualFold fuel p handler w
  = (Returned (Some e), wf, (t1 ++ [EvFetch url1])%list).
Proof.
  intros Hk Hf Hlt. unfold EachPage in *.
  eapply EachPage_loop_return; [exact Hk | | exact Hlt].
  unfold EachPage_body, bind, call, ret. by rewrite Hf.
Qed.

(** X2: An error of [countPage] is returned as it is, whatever count came
    with it, 0 included; the handler is not invoked. *)
Theorem EachPage_count_error p handler k fuel w url1 w1 t1 page wf count e wc :
  EachPage EqualFold k p handler w = (Running url1, w1, t1) ->
  fetchNextPage p url1 w1 = (Val (page, None), wf) ->
  countPage p page wf = (Val (count, Some e), wc) ->
  k < fuel ->
  EachPage EqualFold fuel p handler w
  = (Returned (Some e), wc, (t1 ++ [EvFetch url1; EvCount page])%list).
Proof.
  intros Hk Hf Hc Hlt. unfold EachPage in *.
  eapply EachPage_loop_return; [exact Hk | | exact Hlt].
  unfold EachPage_body, bind, call, ret. rewrite Hf. simpl. by rewrite Hc.
Qed.

(** X3: An error of the handler is returned as it is, whether the handler
    said to go on or to stop; [NextPageURL] is not called. *)
Theorem EachPage_handler_error
    p handler k fuel w url1 w1 t1 page wf count wc ok e wh :
  EachPage EqualFold k p handler w = (Running url1, w1, t1) ->
  fetchNextPage p url1 w1 = (Val (page, None), wf) ->
  countPage p page wf = (Val (count, None), wc) ->
  count <> 0%Z ->
  handler page wc = (Val (ok, Some e), wh) ->
  k < fuel ->
  EachPage EqualFold fuel p handler w
  = (Returned (Some e), wh,
     (t1 ++ [EvFetch url1; EvCount page; EvHandler page])%list).
Proof.
  intros Hk Hf Hc Hnz Hh Hlt. unfold EachPage in *.
  eapply EachPage_loop_return; [exact Hk | | exact Hlt].
  unfold EachPage_body, bind, call, ret. rewrite Hf. simpl. rewrite Hc. simpl.
  destruct (Z.eqb_spec count 0) as [->|_]; [done|].
  by rewrite Hh.
Qed.

(** What a turn does once the page is fetched, counted and handled with
    the handler saying to go on: it calls [NextPageURL]. *)
Lemma EachPage_body_handled p handler url1 w1 page wf count wc wh :
  fetchNextPage p url1 w1 = (Val (page, None), wf) ->
  countPage p page wf = (Val (count, None), wc) ->
  count <> 0%Z ->
  handler page wc = (Val (true, None), wh) ->
  EachPage_body EqualFold p handler url1 w1
  = let '(r, wn) := NextPageURL EqualFold page wh in
    (match r with
     | Panic => Panic
     | Val (next, Some e) => Val (Return (Some e))
     | Val (next, None) =>
         Val (if String.eqb next "" then Return None else Continue next)
     end,
     wn, [EvFetch url1; EvCount page; EvHandler page; EvNextPageURL page]).
Proof.
  intros Hf Hc Hnz Hh.
  unfold EachPage_body, bind, call, ret. rewrite Hf. simpl. rewrite Hc. simpl.
  destruct (Z.eqb_spec count 0) as [->|_]; [done|].
  rewrite Hh. simpl.
  destruct (NextPageURL EqualFold page wh) as [[[next [e|]]|] wn]; simpl;
    try done.
  by destruct (String.eqb next "").
Qed.

(** X4: An error of [NextPageURL] is returned as it is, whatever URL came
    with it; no further page is fetched. *)
Theorem EachPage_next_page_error
    p handler k fuel w url1 w1 t1 page wf count wc wh next e wn :
  EachPage EqualFold k p handler w = (Running url1, w1, t1) ->
  fetchNextPage p url1 w1 = (Val (page, None), wf) ->
  countPage p page wf = (Val (count, None), wc) ->
  count <> 0%Z ->
  handler page wc = (Val (true, None), wh) ->
  NextPageURL EqualFold page wh = (Val (next, Some e), wn) ->
  k < fuel ->
  EachPage EqualFold fuel p handler w
  = (Returned (Some e), wn,
     (t1 ++ [EvFetch url1; EvCount page; EvHandler page; EvNextPageURL page])%list).
Proof.
  intros Hk Hf Hc Hnz Hh Hn Hlt. unfold EachPage in *.
  eapply EachPage_loop_return; [exact Hk | | exact Hlt].
  rewrite (EachPage_body_handled _ _ _ _ _ _ _ _ _ Hf Hc Hnz Hh). by rewrite Hn.
Qed.

(** X5: When [NextPageURL] returns the empty string and no error, the call
    returns nil after that page: the collection is exhausted. *)
Theorem EachPage_exhausted
    p handler k fuel w url1 w1 t1 page wf count wc wh wn :
  EachPage EqualFold k p handler w = (Running url1, w1, t1) ->
  fetchNextPage p url1 w1 = (Val (page, None), wf) ->
  countPage p page wf = (Val (count, None), wc) ->
  count <> 0%Z ->
  handler page wc = (Val (true, None), wh) ->
  NextPageURL EqualFold page wh = (Val ("", None), wn) ->
  k < fuel ->
  EachPage EqualFold fuel p handler w
  = (Returned None, wn,
     (t1 ++ [EvFetch url1; EvCount page; EvHandler page; EvNextPageURL page])%list).
Proof.
  intros Hk Hf Hc Hnz Hh Hn Hlt. unfold EachPage in *.
  eapply EachPage_loop_return; [exact Hk | | exact Hlt].
  rewrite (EachPage_body_handled _ _ _ _ _ _ _ _ _ Hf Hc Hnz Hh). by rewrite Hn.
Qed.

(** X6: When [NextPageURL] returns a URL that is not empty, the loop takes a
    further turn, and the first thing that turn does is to fetch that
    URL, in the world [NextPageURL] left. *)
Theorem EachPage_fetches_next_url
    p handler k fuel w url1 w1 t1 page wf count wc wh next wn :
  EachPage EqualFold k p handler w = (Running url1, w1, t1) ->
  fetchNextPage p url1 w1 = (Val (page, None), wf) ->
  countPage p page wf = (Val (count, None), wc) ->
  count <> 0%Z ->
  handler page wc = (Val (true, None), wh) ->
  NextPageURL EqualFold page wh = (Val (next, None), wn) ->
  next <> "" ->
  S k < fuel ->
  EachPage EqualFold (S k) p handler w
  = (Running next, wn,
     (t1 ++ [EvFetch url1; EvCount page; EvHandler page; EvNextPageURL page])%list)
  /\ exists o w3 t3,
       EachPage EqualFold fuel p handler w
       = (o, w3,
          ((t1 ++ [EvFetch url1; EvCount page; EvHandler page;
                   EvNextPageURL page])
           ++ EvFetch next :: t3)%list).
Proof.
  intros Hk Hf Hc Hnz Hh Hn Hne Hlt. unfold EachPage in *.
  assert (EachPage_loop EqualFold (S k) p handler (initialURL p) w
          = (Running next, wn,
             (t1 ++ [EvFetch url1; EvCount page; EvHandler page;
                     EvNextPageURL page])%list)) as Hstep.
  { replace (S k) with (k + 1) by lia.
    rewrite (EachPage_loop_add _ _ _ _ _ _ _ _ _ _ Hk). simpl.
    rewrite (EachPage_body_handled _ _ _ _ _ _ _ _ _ Hf Hc Hnz Hh), Hn.
    destruct (String.eqb_spec next "") as [->|_]; [done|].
    by rewrite app_nil_r. }
  split; [exact Hstep|].
  destruct (EachPage_body EqualFold p handler next wn) as [[r w2] t2] eqn:Hb.
  destruct (EachPage_loop_turn _ _ _ _ _ _ _ _ _ _ _ _ _ Hstep Hb Hlt)
    as (o & w3 & t3 & ->).
  apply EachPage_body_calls in Hb as [page2 Hshape].
  exists o, w3.
  destruct Hshape as [-> | [-> | [-> | ->]]]; eexists; reflexivity.
Qed.

(** X7: A fetch that yields the nil [Page] without an error makes the call
    panic when it comes to [NextPageURL], after the count and the handler
    have been given the nil page. *)
Theorem EachPage_nil_page_panics p handler k fuel w url1 w1 t1 wf count wc wh :
  EachPage EqualFold k p handler w = (Running url1, w1, t1) ->
  fetchNextPage p url1 w1 = (Val (Page_nil, None), wf) ->
  countPage p Page_nil wf = (Val (count, None), wc) ->
  count <> 0%Z ->
  handler Page_nil wc = (Val (true, None), wh) ->
  k < fuel ->
  EachPage EqualFold fuel p handler w
  = (Panicked, wh,
     (t1 ++ [EvFetch url1; EvCount Page_nil; EvHandler Page_nil;
             EvNextPageURL Page_nil])%list).
Proof.
  intros Hk Hf Hc Hnz Hh Hlt. unfold EachPage in *.
  eapply EachPage_loop_panic; [exact Hk | | exact Hlt].
  by rewrite (EachPage_body_handled _ _ _ _ _ _ _ _ _ Hf Hc Hnz Hh).
Qed.

End EachPage_outcomes.

(* ================================================================== *)
(** * The calls of a run of [EachPage] *)

Section EachPage_runs.

Context {U : Type}.
Variable EqualFold : string -> string -> bool.

Implicit Types (p : Pager U) (handler : Page U -> Act U (bool * error)).
Implicit Types (w : World U) (t : list (Event U)) (page : Page U).

Lemma calls_app (kind : Event U -> bool) t1 t2 :
  calls kind (t1 ++ t2) = calls kind t1 + calls kind t2.
Proof. unfold calls. by rewrite filter_app, length_app. Qed.

Lemma handler_calls_calls t : handler_calls t = calls is_handler_call t.
Proof. reflexivity. Qed.

(** The calls of one turn, by kind. *)
Lemma EachPage_body_counts p handler url0 w :
  let '(r, w1, t) := EachPage_body EqualFold p handler url0 w in
  calls is_fetch_call t = 1
  /\ calls is_next_call t <= handler_calls t
  /\ handler_calls t <= calls is_count_call t
  /\ calls is_count_call t <= 1
  /\ forall url1, r = Val (Continue url1) -> calls is_next_call t = 1.
Proof.
  unfold EachPage_body, bind, call, ret, handler_calls, calls.
  destruct (fetchNextPage p url0 w) as [[[page [e1|]]|] wf]; simpl;
    try (by repeat split; try lia).
  destruct (countPage p page wf) as [[[count [e2|]]|] wc]; simpl;
    try (by repeat split; try lia).
  destruct (count =? 0)%Z; simpl; try (by repeat split; try lia).
  destruct (handler page wc) as [[[ok [e3|]]|] wh]; simpl;
    try (by repeat split; try lia).
  destruct ok; simpl; try (by repeat split; try lia).
  destruct (NextPageURL EqualFold page wh) as [[[next [e4|]]|] wn]; simpl;
    try (by repeat split; try lia).
  destruct (String.eqb next ""); by repeat split; try lia.
Qed.

Lemma EachPage_loop_counts fuel p handler url0 w :
  let '(o, w1, t) := EachPage_loop EqualFold fuel p handler url0 w in
  calls is_next_call t <= handler_calls t
  /\ handler_calls t <= calls is_count_call t
  /\ calls is_count_call t <= calls is_fetch_call t
  /\ calls is_fetch_call t <= S (calls is_next_call t)
  /\ calls is_fetch_call t <= fuel
  /\ forall url1,
       o = Running url1 ->
       calls is_fetch_call t = fuel /\ handler_calls t = fuel.
Proof.
  revert url0 w. induction fuel as [|fuel IH]; intros url0 w; simpl.
  - unfold handler_calls, calls. simpl. by repeat split; try lia.
  - pose proof (EachPage_body_counts p handler url0 w) as Hbody.
    destruct (EachPage_body EqualFold p handler url0 w) as [[r w1] t1].
    destruct Hbody as (Hf & Hn & Hh & Hc & Hcont).
    destruct r as [[e|url1]|].
    + split; [lia|]. split; [lia|]. split; [lia|]. split; [lia|].
      split; [lia|]. discriminate.
    + specialize (IH url1 w1). specialize (Hcont url1 eq_refl).
      destruct (EachPage_loop EqualFold fuel p handler url1 w1) as [[o w2] t2].
      destruct IH as (IHn & IHh & IHc & IHf & IHfuel & IHrun).
      rewrite handler_calls_calls in *. rewrite !calls_app.
      split; [lia|]. split; [lia|]. split; [lia|]. split; [lia|].
      split; [lia|]. intros url2 Hrun. destruct (IHrun url2 Hrun). lia.
    + split; [lia|]. split; [lia|]. split; [lia|]. split; [lia|].
      split; [lia|]. discriminate.
Qed.

(** X8: In any run of [EachPage], each turn fetches one page, and a page is
    counted before it is handled and handled before it is asked for the
    next URL: at most one fetched page, the last, has not been handed to
    the handler and asked for the next URL.  A run that is still going
    after [fuel] turns has fetched and handled [fuel] pages. *)
Theorem EachPage_calls_in_step fuel p handler w :
  let '(o, w1, t) := EachPage EqualFold fuel p handler w in
  calls is_next_call t <= handler_calls t
  /\ handler_calls t <= calls is_count_call t
  /\ calls is_count_call t <= calls is_fetch_call t
  /\ calls is_fetch_call t <= S (calls is_next_call t)
  /\ calls is_fetch_call t <= fuel
  /\ forall url1,
       o = Running url1 ->
       calls is_fetch_call t = fuel /\ handler_calls t = fuel.
Proof. apply EachPage_loop_counts. Qed.

(** X9: The loop has no bound of its own: on a collection whose every turn
    asks for a further one, no number of turns makes the call return, and
    after [fuel] turns the handler has been invoked [fuel] times. *)
Theorem EachPage_never_returns p handler fuel w :
  always_continues EqualFold p handler ->
  exists url1 w1 t,
    EachPage EqualFold fuel p handler w = (Running url1, w1, t)
    /\ handler_calls t = fuel.
Proof.
  intros Hcont. unfold EachPage. generalize (initialURL p) as url0.
  revert w. induction fuel as [|fuel IH]; intros w url0; simpl.
  - by exists url0, w, [].
  - destruct (Hcont url0 w)
      as (page & wf & count & wc & wh & next & wn & Hf & Hc & Hnz & Hh & Hn & Hne).
    rewrite (EachPage_body_handled EqualFold _ _ _ _ _ _ _ _ _ Hf Hc Hnz Hh), Hn.
    destruct (String.eqb_spec next "") as [->|_]; [done|].
    destruct (IH wn next) as (url1 & w1 & t & -> & Hcalls).
    exists url1, w1. eexists. split; [reflexivity|].
    rewrite handler_calls_calls in *. rewrite calls_app, Hcalls. reflexivity.
Qed.

End EachPage_runs.

(* ================================================================== *)
(** * Further properties of the pages *)

Section Page_properties.

Context {U : Type}.
Variable EqualFold : string -> string -> bool.
Variable json_Unmarshal : string -> JSON + GoError.

Implicit Types (w : World U) (members : list (string * JSON)).

Lemma string_app_cons_nonempty (a b : string) c : a ++ String c b <> "".
Proof. by destruct a. Qed.

(** X10: [MarkerPage.NextPageURL] never signals the end of the collection:
    when [lastMark] succeeds, the URL it returns is not empty, whatever
    the stored URL and the mark are. *)
Theorem MarkerPage_next_url_not_empty (current : MarkerPage U) mark w w1 :
  lastMark current (MarkerPage_LastHTTPResponse current) w = (Val (mark, None), w1) ->
  exists next,
    NextPageURL EqualFold (Page_Marker current) w = (Val (next, None), w1)
    /\ next <> "".
Proof.
  intros Hmark. eexists. split.
  - simpl. by apply MarkerPage_NextPageURL_ok.
  - rewrite MarkerPage_nextURL_String. apply string_app_cons_nonempty.
Qed.

(** X11: From one page to the next the marker is replaced, not added: the next
    URL computed from a URL that [NextPageURL] produced for an earlier
    mark is the one computed from the stored URL for the new mark. *)
Theorem MarkerPage_nextURL_replaces_marker (u : url.URL) (mark1 mark2 : string) :
  MarkerPage_nextURL (MarkerPage_nextURL u mark1) mark2 = MarkerPage_nextURL u mark2.
Proof.
  unfold MarkerPage_nextURL at 1.
  rewrite Query_MarkerPage_nextURL. unfold url.Set_. rewrite insert_insert_eq.
  reflexivity.
Qed.

(** What [field_value] finds when no key is the field name itself: the
    value under the first key that [EqualFold] matches. *)
Lemma field_value_folded (l1 l2 : list (string * JSON)) fieldName k v :
  (forall k' v', (k', v') ∈ (l1 ++ (k, v) :: l2)%list -> k' <> fieldName) ->
  (forall k' v', (k', v') ∈ l1 -> EqualFold k' fieldName = false) ->
  EqualFold k fieldName = true ->
  mapstructure.field_value EqualFold fieldName (l1 ++ (k, v) :: l2)%list = Some v.
Proof.
  intros Hexact Hfold Hk. unfold mapstructure.field_value.
  assert (find (fun kv => String.eqb (fst kv) fieldName) (l1 ++ (k, v) :: l2)%list
          = None) as ->.
  { revert Hexact. generalize (l1 ++ (k, v) :: l2)%list as l.
    induction l as [|[k' v'] l IH]; intros Hexact; [done|]. simpl.
    destruct (String.eqb_spec k' fieldName) as [->|_].
    - by destruct (Hexact fieldName v' (list_elem_of_here _ _)).
    - apply IH. intros k0 v0 Hin. apply (Hexact k0 v0).
      by apply list_elem_of_further. }
  assert (find (fun kv => EqualFold (fst kv) fieldName) (l1 ++ (k, v) :: l2)%list
          = Some (k, v)) as ->; [|done].
  induction l1 as [|[k' v'] l1 IH]; simpl.
  - by rewrite Hk.
  - rewrite (Hfold k' v') by apply list_elem_of_here.
    apply IH.
    + intros k0 v0 Hin. apply (Hexact k0 v0). by apply list_elem_of_further.
    + intros k0 v0 Hin. apply (Hfold k0 v0). by apply list_elem_of_further.
Qed.

(** X12: The key of [next] is matched without regard to case when no key is
    [next] itself: the link under the first key that [strings.EqualFold]
    matches with [next] is returned. *)
Theorem LinkedPage_next_under_folded_key
    (u : url.URL) (h : http.Header) members l1 l2 k next w :
  NoDup members.*1 ->
  ("links", JObject (l1 ++ (k, JString next) :: l2)%list) ∈ members ->
  (forall k' v', (k', v') ∈ (l1 ++ (k, JString next) :: l2)%list -> k' <> "next") ->
  (forall k' v', (k', v') ∈ l1 -> EqualFold k' "next" = false) ->
  EqualFold k "next" = true ->
  LinkedPage_NextPageURL EqualFold
    (mkLastHTTPResponse u h (Decoded (JObject members))) w
  = (Val (next, None), w).
Proof.
  intros Hnd Hlinks Hexact Hfold Hk.
  unfold LinkedPage_NextPageURL, mapstructure.Decode,
    mapstructure.decode_response, mapstructure.decode_Links. simpl.
  rewrite (field_value_present EqualFold _ _ _ Hnd Hlinks).
  by rewrite (field_value_folded _ _ _ _ _ Hexact Hfold Hk).
Qed.

(** X13: What [RememberHTTPResponse] stores from a JSON response is what
    [LinkedPage.NextPageURL] reads: the link [links.next] of the decoded
    body comes back as the next URL. *)
Theorem remembered_link_is_next_url
    (resp : http.Response) body rawBody requestURL members l next w :
  http.Body_ resp = Some body ->
  http.ReadAll body = (rawBody, None) ->
  http.Request resp = Some (http.mkRequest (Some requestURL)) ->
  http.Get (http.Header_ resp) "Content-Type" = "application/json" ->
  json_Unmarshal rawBody = inl (JObject members) ->
  NoDup members.*1 -> NoDup l.*1 ->
  ("links", JObject l) ∈ members ->
  ("next", JString next) ∈ l ->
  exists cp,
    RememberHTTPResponse json_Unmarshal resp = Val (cp, None)
    /\ LinkedPage_NextPageURL EqualFold cp w = (Val (next, None), w).
Proof.
  intros Hbody Hread Hrequest Hct Hjson Hnd Hl Hlinks Hnext.
  unfold RememberHTTPResponse. rewrite Hbody, Hread, Hct, Hrequest. simpl.
  rewrite Hjson. eexists. split; [reflexivity|].
  unfold LinkedPage_NextPageURL, mapstructure.Decode,
    mapstructure.decode_response, mapstructure.decode_Links. simpl.
  rewrite (field_value_present EqualFold _ _ _ Hnd Hlinks).
  by rewrite (field_value_present EqualFold _ _ _ Hl Hnext).
Qed.

(** X14: A response whose [Content-Type] is anything but [application/json]
    is remembered with its raw bytes, and as a [LinkedPage] it has no
    next URL but a decode error, whatever the bytes are. *)
Theorem remembered_raw_body_has_no_link
    (resp : http.Response) body rawBody requestURL w :
  http.Body_ resp = Some body ->
  http.ReadAll body = (rawBody, None) ->
  http.Request resp = Some (http.mkRequest (Some requestURL)) ->
  http.Get (http.Header_ resp) "Content-Type" <> "application/json" ->
  exists cp,
    RememberHTTPResponse json_Unmarshal resp = Val (cp, None)
    /\ LinkedPage_NextPageURL EqualFold cp w
       = (Val ("", Some (MapstructureError [""])), w).
Proof.
  intros Hbody Hread Hrequest Hct.
  unfold RememberHTTPResponse. rewrite Hbody, Hread, Hrequest.
  destruct (String.eqb_spec (http.Get (http.Header_ resp) "Content-Type")
              "application/json") as [Heq|_]; [done|].
  eexists. split; reflexivity.
Qed.

(** X15: [RememberHTTPResponse] panics exactly on a response whose body is
    nil, and on a response without request URL whose body was read and,
    if it had to be, decoded without error.  Without a request URL, a
    body that cannot be read or decoded yields the error, not a panic. *)
Theorem RememberHTTPResponse_panics (resp : http.Response) :
  RememberHTTPResponse json_Unmarshal resp = Panic
  <-> http.Body_ resp = None
      \/ exists body rawBody,
           http.Body_ resp = Some body
           /\ http.ReadAll body = (rawBody, None)
           /\ (http.Get (http.Header_ resp) "Content-Type" = "application/json" ->
               exists v, json_Unmarshal rawBody = inl v)
           /\ no_request_url resp.
Proof.
  unfold RememberHTTPResponse, no_request_url.
  destruct (http.Body_ resp) as [body|]; [|split; [by left|done]].
  destruct (http.ReadAll body) as [rawBody [e|]] eqn:Hread.
  - split; [done|].
    intros [Hnil|(b & r & Hb & Hr & _)]; [done|].
    injection Hb as <-. rewrite Hread in Hr. discriminate.
  - destruct (String.eqb_spec (http.Get (http.Header_ resp) "Content-Type")
                "application/json") as [Hct|Hct].
    + destruct (json_Unmarshal rawBody) as [v|e] eqn:Hjson.
      * split.
        -- intros Hpanic. right. exists body, rawBody.
           split; [done|]. split; [done|]. split; [by exists v|].
           by destruct (http.Request resp) as [[[?|]]|].
        -- intros [Hnil|(b & r & _ & _ & _ & Hno)]; [done|].
           by destruct (http.Request resp) as [[[?|]]|].
      * split; [done|].
        intros [Hnil|(b & r & Hb & Hr & Hv & _)]; [done|].
        injection Hb as <-. rewrite Hread in Hr. injection Hr as <-.
        destruct (Hv Hct) as [v Hv']. congruence.
    + split.
      * intros Hpanic. right. exists body, rawBody.
        split; [done|]. split; [done|]. split; [done|].
        by destruct (http.Request resp) as [[[?|]]|].
      * intros [Hnil|(b & r & _ & _ & _ & Hno)]; [done|].
        by destruct (http.Request resp) as [[[?|]]|].
Qed.

End Page_properties.

(* ================================================================== *)
(** * Further properties of the constructors *)

Section Constructor_properties.

Context {U : Type}.
Variable EqualFold : string -> string -> bool.
Variable json_Unmarshal : string -> JSON + GoError.
Variable ServiceClient : Type.
Variable AuthenticatedHeaders : ServiceClient -> U -> res (gmap string string) * U.
Variable perigee_Request :
  string -> string -> perigee_Options -> U -> res (option http.Response * error) * U.

Local Abbreviation request' :=
  (request ServiceClient AuthenticatedHeaders perigee_Request).
Local Abbreviation single' :=
  (single json_Unmarshal ServiceClient AuthenticatedHeaders perigee_Request).
Local Abbreviation NewSinglePager' :=
  (NewSinglePager json_Unmarshal ServiceClient AuthenticatedHeaders perigee_Request).
Local Abbreviation NewLinkedPager' :=
  (NewLinkedPager json_Unmarshal ServiceClient AuthenticatedHeaders perigee_Request).
Local Abbreviation NewMarkerPager' :=
  (NewMarkerPager json_Unmarshal ServiceClient AuthenticatedHeaders perigee_Request).

Implicit Types (w : World U) (client : ServiceClient).
Implicit Types (handler : Page U -> Act U (bool * error)).

(** [request] with a transport that returns an error. *)
Lemma request_error client url0 w headers u1 resp e u2 :
  AuthenticatedHeaders client (ext w) = (Val headers, u1) ->
  perigee_Request "GET" url0 (mkOptions headers [200; 204]%Z) u1
  = (Val (resp, Some e), u2) ->
  request' client url0 w
  = (Val (http.Response_zero, Some e), mkWorld u2 (cells w)).
Proof.
  intros Hheaders Hrequest. unfold request, outside.
  rewrite Hheaders. simpl. by rewrite Hrequest.
Qed.

(** X16: An error of the transport ends a call of [EachPage] at its first
    fetch, for the Pagers of the three constructors that fetch through
    [request]: the error is returned as it is, and neither [countPage]
    nor the handler is called.  The Pager of [NewSinglePager] requests
    [onlyURL] though its first fetch is given the empty URL, and its
    [consumed] is set all the same. *)
Theorem transport_error_ends_traversal
    client url0 count mark handler fuel w headers u1 resp e u2 :
  AuthenticatedHeaders client (ext w) = (Val headers, u1) ->
  perigee_Request "GET" url0 (mkOptions headers [200; 204]%Z) u1
  = (Val (resp, Some e), u2) ->
  EachPage EqualFold (S fuel) (NewLinkedPager' client url0 count) handler w
  = (Returned (Some e), mkWorld u2 (cells w), [EvFetch url0])
  /\ EachPage EqualFold (S fuel) (NewMarkerPager' client url0 mark count) handler w
     = (Returned (Some e), mkWorld u2 (cells w), [EvFetch url0])
  /\ (let '(p, w1) := NewSinglePager' client url0 count w in
      EachPage EqualFold (S fuel) p handler w1
      = (Returned (Some e), mkWorld u2 (cells w ++ [true]), [EvFetch ""])).
Proof.
  intros Hheaders Hrequest.
  unfold EachPage. simpl. unfold EachPage_body, bind, call, ret. simpl.
  unfold NewLinkedPager_fetchNextPage, NewMarkerPager_fetchNextPage, single.
  rewrite (request_error client url0 w _ _ _ _ _ Hheaders Hrequest).
  split; [done|]. split; [done|].
  assert (read_cell (List.length (cells w))
            (mkWorld (ext w) (cells w ++ [false])) = false) as ->.
  { unfold read_cell. simpl. by rewrite lookup_app_r, Nat.sub_diag by lia. }
  simpl.
  rewrite (request_error client url0
             (write_cell (List.length (cells w)) true
                (mkWorld (ext w) (cells w ++ [false])))
             headers u1 resp e u2 Hheaders Hrequest).
  simpl. do 3 f_equal.
  rewrite insert_app_r_alt, Nat.sub_diag by lia. reflexivity.
Qed.

(** X17: A call of [EachPage] on a Pager of [NewSinglePager] takes one turn,
    in whatever world and with whatever handler: it fetches once, with
    the empty URL, invokes the handler at most once, and returns or
    panics. *)
Theorem single_pager_takes_one_turn client onlyURL count handler
    (w0 : World U) fuel w :
  let '(p, w1) := NewSinglePager' client onlyURL count w0 in
  let '(o, w2, t) := EachPage EqualFold (S fuel) p handler w in
  (forall url1, o <> Running url1)
  /\ (exists t', t = EvFetch "" :: t')
  /\ calls is_fetch_call t = 1
  /\ handler_calls t <= 1.
Proof.
  unfold NewSinglePager. simpl. unfold EachPage. simpl.
  set (p := mkPager "" (single' (List.length (cells w0)) client onlyURL) count).
  pose proof (EachPage_body_counts EqualFold p handler "" w) as Hcounts.
  pose proof (EachPage_body_single EqualFold p handler "" w) as Hsingle.
  destruct (EachPage_body EqualFold p handler "" w) as [[r wb] tb] eqn:Hb.
  destruct Hcounts as (Hfetch & Hnext & Hhandler & Hcount & _).
  assert (exists t', tb = EvFetch "" :: t') as Hfirst.
  { apply EachPage_body_calls in Hb as [page [-> | [-> | [-> | ->]]]];
      eexists; reflexivity. }
  destruct r as [[e|url1]|].
  - repeat split; try done; lia.
  - exfalso. eapply Hsingle; [|reflexivity].
    intros page wf. apply single_returns_SinglePage.
  - repeat split; try done; lia.
Qed.

(** The first invocation of the closure of [NewSinglePager]. *)
Lemma single_first l client onlyURL url0 w :
  read_cell l w = false ->
  single' l client onlyURL url0 w
  = let '(rr, wr) := request' client onlyURL w in
    (single_page_of json_Unmarshal rr,
     mkWorld (ext wr) (<[l := true]> (cells w))).
Proof.
  intros Hfresh. unfold single. rewrite Hfresh. simpl.
  assert (request' client onlyURL (write_cell l true w)
          = let '(rr, wr) := request' client onlyURL w in
            (rr, mkWorld (ext wr) (<[l := true]> (cells w)))) as ->.
  { unfold request, outside, write_cell. simpl.
    destruct (AuthenticatedHeaders client (ext w)) as [[headers|] u1]; [|done].
    simpl.
    destruct (perigee_Request "GET" onlyURL _ u1) as [[[resp [e|]]|] u2];
      try done.
    by destruct resp. }
  destruct (request' client onlyURL w) as [[[resp [e|]]|] wr]; try done.
  simpl. by destruct (RememberHTTPResponse json_Unmarshal resp) as [[cp [e|]]|].
Qed.

(** X18: Two Pagers of [NewSinglePager] do not share their [consumed]: after
    one has fetched, the first fetch of the other still performs its
    request, and from then on both return [ErrPageNotAvailable]. *)
Theorem single_pagers_are_consumed_apart
    client1 onlyURL1 count1 client2 onlyURL2 count2 (w0 : World U) a b c :
  let '(p1, w1) := NewSinglePager' client1 onlyURL1 count1 w0 in
  let '(p2, w2) := NewSinglePager' client2 onlyURL2 count2 w1 in
  let '(r1, w3) := fetchNextPage p1 a w2 in
  let '(r2, w4) := fetchNextPage p2 b w3 in
  (r2, ext w4)
  = (let '(rr, wr) := request' client2 onlyURL2 w3 in
     (single_page_of json_Unmarshal rr, ext wr))
  /\ fetchNextPage p1 c w4 = (Val (SinglePage_zero, Some ErrPageNotAvailable), w4)
  /\ fetchNextPage p2 c w4 = (Val (SinglePage_zero, Some ErrPageNotAvailable), w4).
Proof.
  unfold NewSinglePager. simpl.
  set (l1 := List.length (cells w0)).
  set (l2 := List.length (cells w0 ++ [false])).
  set (w2 := mkWorld (ext w0) ((cells w0 ++ [false]) ++ [false])).
  assert (l2 = S l1) as Hl2 by (subst l1 l2; rewrite length_app; simpl; lia).
  assert (read_cell l1 w2 = false) as Hfresh1.
  { subst l1 w2. unfold read_cell. simpl.
    rewrite <- app_assoc. by rewrite lookup_app_r, Nat.sub_diag by lia. }
  rewrite (single_first l1 client1 onlyURL1 a w2 Hfresh1).
  pose proof (request_cells ServiceClient AuthenticatedHeaders perigee_Request
                client1 onlyURL1 w2) as Hcells1.
  destruct (request' client1 onlyURL1 w2) as [rr1 wr1]. simpl in Hcells1.
  set (w3 := mkWorld (ext wr1) (<[l1 := true]> (cells w2))).
  assert (read_cell l2 w3 = false) as Hfresh2.
  { subst w3 w2. unfold read_cell. simpl.
    rewrite list_lookup_insert_ne by lia.
    subst l2. by rewrite lookup_app_r, Nat.sub_diag by lia. }
  rewrite (single_first l2 client2 onlyURL2 b w3 Hfresh2).
  destruct (request' client2 onlyURL2 w3) as [rr2 wr2].
  split; [done|].
  assert (l1 < List.length (cells w2) /\ l2 < List.length (cells w2)) as [Hb1 Hb2].
  { subst w2. simpl. rewrite !length_app. simpl. subst l1. lia. }
  split; apply single_consumed; unfold read_cell; simpl.
  - rewrite list_lookup_insert_ne by lia.
    by rewrite list_lookup_insert_eq.
  - by rewrite list_lookup_insert_eq by (by rewrite length_insert).
Qed.

End Constructor_properties.

(* ================================================================== *)
(** * The further properties on the examples *)

Lemma EachPage_fetch_error_witness :
  EachPage EqualFold_ascii 1 Demo.pager_fetch_fails Demo.handler_continue Demo.w0
  = (Returned (Some (ForeignError "timeout")), Demo.w0,
     ([] ++ [EvFetch Demo.service_url])%list).
Proof.
  apply (EachPage_fetch_error EqualFold_ascii Demo.pager_fetch_fails
           Demo.handler_continue 0 1 Demo.w0 Demo.service_url Demo.w0 []
           Demo.page1 (ForeignError "timeout") Demo.w0);
    [reflexivity | reflexivity | lia].
Defined.

Lemma EachPage_count_error_witness :
  EachPage EqualFold_ascii 1 Demo.pager_count_fails Demo.handler_continue Demo.w0
  = (Returned (Some (ForeignError "no items")), Demo.w0,
     ([] ++ [EvFetch Demo.service_url; EvCount Demo.page1])%list).
Proof.
  apply (EachPage_count_error EqualFold_ascii Demo.pager_count_fails
           Demo.handler_continue 0 1 Demo.w0 Demo.service_url Demo.w0 []
           Demo.page1 Demo.w0 0%Z (ForeignError "no items") Demo.w0);
    [reflexivity | reflexivity | reflexivity | lia].
Defined.

Lemma EachPage_handler_error_witness :
  EachPage EqualFold_ascii 1 Demo.pager Demo.handler_fails Demo.w0
  = (Returned (Some (ForeignError "handler")), mkWorld 1 [],
     ([] ++ [EvFetch Demo.service_url; EvCount Demo.page1;
             EvHandler Demo.page1])%list).
Proof.
  apply (EachPage_handler_error EqualFold_ascii Demo.pager Demo.handler_fails
           0 1 Demo.w0 Demo.service_url Demo.w0 [] Demo.page1 Demo.w0 1%Z
           Demo.w0 false (ForeignError "handler") (mkWorld 1 []));
    [reflexivity | reflexivity | reflexivity | lia | reflexivity | lia].
Defined.

Lemma EachPage_next_page_error_witness :
  EachPage EqualFold_ascii 2 Demo.pager_next_fails Demo.handler_continue Demo.w0
  = (Returned (Some (ForeignError "next")), mkWorld 1 [],
     ([] ++ [EvFetch Demo.service_url; EvCount Demo.page_next_fails;
             EvHandler Demo.page_next_fails;
             EvNextPageURL Demo.page_next_fails])%list).
Proof.
  apply (EachPage_next_page_error EqualFold_ascii Demo.pager_next_fails
           Demo.handler_continue 0 2 Demo.w0 Demo.service_url Demo.w0 []
           Demo.page_next_fails Demo.w0 1%Z Demo.w0 (mkWorld 1 [])
           Demo.second_url (ForeignError "next") (mkWorld 1 []));
    [reflexivity | reflexivity | reflexivity | lia | reflexivity
    | reflexivity | lia].
Defined.

Lemma EachPage_exhausted_witness :
  EachPage EqualFold_ascii 2 Demo.pager_last Demo.handler_continue Demo.w0
  = (Returned None, mkWorld 1 [],
     ([] ++ [EvFetch Demo.service_url; EvCount Demo.page_last;
             EvHandler Demo.page_last; EvNextPageURL Demo.page_last])%list).
Proof.
  apply (EachPage_exhausted EqualFold_ascii Demo.pager_last
           Demo.handler_continue 0 2 Demo.w0 Demo.service_url Demo.w0 []
           Demo.page_last Demo.w0 1%Z Demo.w0 (mkWorld 1 []) (mkWorld 1 []));
    [reflexivity | reflexivity | reflexivity | lia | reflexivity
    | reflexivity | lia].
Defined.

Lemma EachPage_fetches_next_url_witness :
  EachPage EqualFold_ascii 1 Demo.pager Demo.handler_continue Demo.w0
  = (Running Demo.second_url, mkWorld 1 [],
     ([] ++ [EvFetch Demo.service_url; EvCount Demo.page1; EvHandler Demo.page1;
             EvNextPageURL Demo.page1])%list)
  /\ exists o w3 t3,
       EachPage EqualFold_ascii 2 Demo.pager Demo.handler_continue Demo.w0
       = (o, w3,
          (([] ++ [EvFetch Demo.service_url; EvCount Demo.page1;
                   EvHandler Demo.page1; EvNextPageURL Demo.page1])
           ++ EvFetch Demo.second_url :: t3)%list).
Proof.
  apply (EachPage_fetches_next_url EqualFold_ascii Demo.pager
           Demo.handler_continue 0 2 Demo.w0 Demo.service_url Demo.w0 []
           Demo.page1 Demo.w0 1%Z Demo.w0 (mkWorld 1 []) Demo.second_url
           (mkWorld 1 []));
    [reflexivity | reflexivity | reflexivity | lia | reflexivity
    | reflexivity | discriminate | lia].
Defined.

Lemma EachPage_nil_page_panics_witness :
  EachPage EqualFold_ascii 1 Demo.pager_of_nil_pages Demo.handler_continue Demo.w0
  = (Panicked, mkWorld 1 [],
     ([] ++ [EvFetch Demo.service_url; EvCount Page_nil; EvHandler Page_nil;
             EvNextPageURL Page_nil])%list).
Proof.
  apply (EachPage_nil_page_panics EqualFold_ascii Demo.pager_of_nil_pages
           Demo.handler_continue 0 1 Demo.w0 Demo.service_url Demo.w0 []
           Demo.w0 1%Z Demo.w0 (mkWorld 1 []));
    [reflexivity | reflexivity | reflexivity | lia | reflexivity | lia].
Defined.

Lemma EachPage_never_returns_witness :
  exists url1 w1 t,
    EachPage EqualFold_ascii 7 Demo.pager_cycle Demo.handler_continue Demo.w0
    = (Running url1, w1, t)
    /\ handler_calls t = 7.
Proof.
  apply (EachPage_never_returns EqualFold_ascii Demo.pager_cycle
           Demo.handler_continue 7 Demo.w0).
  intros url0 w.
  exists Demo.page_cycle, w, 1%Z, w, (mkWorld (S (ext w)) (cells w)),
    Demo.service_url, (mkWorld (S (ext w)) (cells w)).
  destruct w as [u c]. repeat split; (reflexivity || discriminate).
Defined.

Lemma MarkerPage_next_url_not_empty_witness :
  exists next,
    NextPageURL EqualFold_ascii (Page_Marker (Demo.marker_page "" "")) Demo.w0
    = (Val (next, None), Demo.w0)
    /\ next <> "".
Proof.
  apply (MarkerPage_next_url_not_empty EqualFold_ascii (Demo.marker_page "" "")
           "" Demo.w0 Demo.w0 eq_refl).
Defined.

Lemma LinkedPage_next_under_folded_key_witness :
  LinkedPage_NextPageURL EqualFold_ascii
    (mkLastHTTPResponse (items_url "") Demo.json_header
       (Decoded (JObject
          [("links",
            JObject ([("self", JString Demo.service_url)]
                     ++ ("Next", JString Demo.second_url) :: [])%list)])))
    Demo.w0
  = (Val (Demo.second_url, None), Demo.w0).
Proof.
  apply (LinkedPage_next_under_folded_key EqualFold_ascii (items_url "")
           Demo.json_header _ [("self", JString Demo.service_url)] [] "Next"
           Demo.second_url Demo.w0).
  - apply NoDup_singleton.
  - apply list_elem_of_here.
  - intros k' v' Hin. simpl in Hin.
    apply elem_of_cons in Hin as [Hin|Hin]; [by injection Hin as -> _|].
    apply elem_of_cons in Hin as [Hin|Hin]; [by injection Hin as -> _|].
    by apply elem_of_nil in Hin.
  - intros k' v' Hin.
    apply elem_of_cons in Hin as [Hin|Hin]; [by injection Hin as -> _|].
    by apply elem_of_nil in Hin.
  - reflexivity.
Defined.

Lemma remembered_link_is_next_url_witness :
  exists cp,
    RememberHTTPResponse Demo.json_Unmarshal_links
      (Demo.response Demo.json_header Demo.links_document)
    = Val (cp, None)
    /\ LinkedPage_NextPageURL EqualFold_ascii cp Demo.w0
       = (Val ("https://x/2", None), Demo.w0).
Proof.
  apply (remembered_link_is_next_url EqualFold_ascii Demo.json_Unmarshal_links
           (Demo.response Demo.json_header Demo.links_document)
           (http.mkReadCloser (Demo.links_document, None)) Demo.links_document
           (items_url "") Demo.links_members
           [("next", JString "https://x/2")] "https://x/2" Demo.w0);
    try reflexivity; try apply NoDup_singleton; apply list_elem_of_here.
Defined.

Lemma remembered_raw_body_has_no_link_witness :
  exists cp,
    RememberHTTPResponse Demo.json_Unmarshal
      (Demo.response Demo.text_header Demo.links_document)
    = Val (cp, None)
    /\ LinkedPage_NextPageURL EqualFold_ascii cp Demo.w0
       = (Val ("", Some (MapstructureError [""])), Demo.w0).
Proof.
  apply (remembered_raw_body_has_no_link EqualFold_ascii Demo.json_Unmarshal
           (Demo.response Demo.text_header Demo.links_document)
           (http.mkReadCloser (Demo.links_document, None)) Demo.links_document
           (items_url "") Demo.w0);
    try reflexivity. discriminate.
Defined.

Lemma transport_error_ends_traversal_witness :
  EachPage EqualFold_ascii 3
    (NewLinkedPager Demo.json_Unmarshal unit Demo.AuthenticatedHeaders
       Demo.perigee_Request_fails tt Demo.service_url Demo.count_one)
    Demo.handler_continue Demo.w0
  = (Returned (Some (ForeignError "connection refused")), Demo.w0,
     [EvFetch Demo.service_url]).
Proof.
  apply (proj1 (transport_error_ends_traversal EqualFold_ascii
                  Demo.json_Unmarshal unit Demo.AuthenticatedHeaders
                  Demo.perigee_Request_fails tt Demo.service_url Demo.count_one
                  (fun _ => outside (fun u => (Val ("", None), u)))
                  Demo.handler_continue 2 Demo.w0 _ 0 None
                  (ForeignError "connection refused") 0 eq_refl eq_refl)).
Defined.
